(** * Review scoring core of the dashboard: text cleaning, category
      extraction, churn detection and opportunity detection.

    The development embeds [src/preprocessing/text_cleaner.py],
    [src/preprocessing/category_extractor.py],
    [src/analysis/churn_detector.py] and
    [src/analysis/opportunity_finder.py] and proves the properties the
    specification states about them. *)

From Stdlib Require Import List Bool Arith NArith ZArith QArith Qround Lia.
From Stdlib Require Import Strings.String Strings.Ascii Sorting.Sorted.
Import ListNotations.

Close Scope Q_scope.
Open Scope nat_scope.

(* ===================================================================== *)
(** * Python values                                                       *)
(* ===================================================================== *)

(** A Python [str] is a sequence of Unicode code points. *)
Definition codepoint := N.
Definition str := list codepoint.

(** Literals are written as in the source files, which are UTF-8: [u]
    decodes the bytes of a Rocq string literal into code points. *)
Module Utf8.

Fixpoint decode (pending : nat) (acc : N) (bs : list N) : str :=
  match bs with
  | [] => []
  | b :: r =>
      if (b <? 128)%N then b :: decode 0 0%N r
      else if (b <? 192)%N then
        let acc' := (acc * 64 + (b - 128))%N in
        match pending with
        | 0 => decode 0 0%N r
        | 1 => acc' :: decode 0 0%N r
        | S p => decode p acc' r
        end
      else if (b <? 224)%N then decode 1 (b - 192)%N r
      else if (b <? 240)%N then decode 2 (b - 224)%N r
      else decode 3 (b - 240)%N r
  end.

Definition bytes (s : string) : list N :=
  map N_of_ascii (list_ascii_of_string s).

End Utf8.

Definition u (s : string) : str := Utf8.decode 0 0%N (Utf8.bytes s).

Definition str_eqb (a b : str) : bool :=
  if list_eq_dec N.eq_dec a b then true else false.

(** [prefix p s]: [s.startswith(p)]. *)
Fixpoint prefix (p s : str) : bool :=
  match p, s with
  | [], _ => true
  | _ :: _, [] => false
  | a :: p', b :: s' => (a =? b)%N && prefix p' s'
  end.

(** [contains p s]: the Python test [p in s] on strings. *)
Fixpoint contains (p s : str) : bool :=
  prefix p s || match s with [] => false | _ :: s' => contains p s' end.

(** [sum(1 for x in xs if x in text)]. *)
Definition count_in (xs : list str) (text : str) : nat :=
  List.length (filter (fun x => contains x text) xs).

(** [d[key]] on a keyword table, for a key that is present. *)
Fixpoint getitem (d : list (string * list str)) (key : string) : list str :=
  match d with
  | [] => []
  | (k, v) :: d' => if String.eqb k key then v else getitem d' key
  end.

(** The argument [text] of the scorers is annotated [str], but the data
    frame may hand over [None] or another object; the scorers look only
    at its truth value and at [isinstance(text, str)]. *)
Inductive pyobj : Type :=
| PyNone
| PyStr (s : str)
| PyOther (truth : bool).

Definition truthy (v : pyobj) : bool :=
  match v with
  | PyNone => false
  | PyStr s => match s with [] => false | _ => true end
  | PyOther b => b
  end.

Definition isinstance_str (v : pyobj) : bool :=
  match v with PyStr _ => true | _ => false end.

Definition as_str (v : pyobj) : str :=
  match v with PyStr s => s | _ => [] end.

(* ===================================================================== *)
(** * The Unicode tables of the interpreter                               *)
(* ===================================================================== *)

(** [str.lower], [unicodedata.normalize] and the classes [\w] and [\s]
    are driven by the Unicode character database of the interpreter,
    which is not part of the repository.  The Basic Latin block is
    written out; everything beyond it is a parameter. *)
Record unicode : Type := {
  str_lower : str -> str;            (* str.lower() *)
  normalize_nfkc : str -> str;       (* unicodedata.normalize('NFKC', s) *)
  isspace_high : codepoint -> bool;  (* str.isspace beyond U+007F *)
  isalnum_high : codepoint -> bool   (* str.isalnum beyond U+007F *)
}.

Definition between (lo hi c : N) : bool := ((lo <=? c) && (c <=? hi))%N.

(** Basic Latin whitespace: TAB LF VT FF CR, FS GS RS US, SPACE. *)
Definition ascii_isspace (c : codepoint) : bool :=
  between 9 13 c || between 28 32 c.

Definition ascii_isalnum (c : codepoint) : bool :=
  between 48 57 c || between 65 90 c || between 97 122 c.

Section Classes.
Variable U : unicode.

(** [\s] of [re] on [str] patterns, and the whitespace of
    [str.split()] and [str.strip()]. *)
Definition isspace (c : codepoint) : bool :=
  if (c <? 128)%N then ascii_isspace c else isspace_high U c.

(** [\w] of [re] on [str] patterns: alphanumeric or underscore. *)
Definition isword (c : codepoint) : bool :=
  if (c <? 128)%N then ascii_isalnum c || (c =? 95)%N else isalnum_high U c.
End Classes.

(** A database that agrees with the interpreter on Basic Latin and on
    the letters of Latin-1 Supplement (U+00C0..U+00FF without the signs
    U+00D7 and U+00F7), which covers the keyword tables and the
    scenarios of the specification.  Beyond that repertoire it is only
    a stand-in. *)
Module Latin.

Definition is_letter (c : codepoint) : bool :=
  between 192 255 c && negb (c =? 215)%N && negb (c =? 247)%N.

Definition lower_cp (c : codepoint) : codepoint :=
  if between 65 90 c then (c + 32)%N
  else if between 192 222 c && negb (c =? 215)%N then (c + 32)%N
  else c.

Definition db : unicode := {|
  str_lower := map lower_cp;
  normalize_nfkc := fun s => s;
  isspace_high := fun c => (c =? 133)%N || (c =? 160)%N;
  isalnum_high := is_letter
|}.

End Latin.

Example u_decodes_utf8 : u "não é" = [110; 227; 111; 32; 233]%N.
Proof. reflexivity. Qed.

Example lower_latin :
  str_lower Latin.db (u "Produto HORRÍVEL") = u "produto horrível".
Proof. reflexivity. Qed.

(* ===================================================================== *)
(** * Numbers                                                             *)
(* ===================================================================== *)

(** Scores are Python numbers: integers until a rating factor is
    applied, floats afterwards.  They are modelled by exact rationals,
    the factors 1.5, 1.2, 1.3 and 1.1 being the decimal fractions the
    source writes.  The weighted sums are multiples of 5, so the
    double-precision products never sit on a threshold of the
    classifiers, and [round(_, 2)] returns the decimal value of the
    exact product. *)
Definition of_nat (n : nat) : Q := inject_Z (Z.of_nat n).

(** [min(a, b)]: the first argument unless the second is smaller. *)
Definition py_min (a b : Q) : Q := if Qle_bool a b then a else b.

(** Rounding to the nearest integer, ties to even. *)
Definition round_half_even (q : Q) : Z :=
  let n := Qnum q in
  let d := Zpos (Qden q) in
  let f := (n / d)%Z in
  let r := (n mod d)%Z in
  if (2 * r <? d)%Z then f
  else if (d <? 2 * r)%Z then (f + 1)%Z
  else if Z.even f then f else (f + 1)%Z.

(** [round(x, 2)]. *)
Definition round2 (x : Q) : Q := (round_half_even (x * 100) # 100)%Q.

(* ===================================================================== *)
(** * analysis/churn_detector.py                                          *)
(* ===================================================================== *)

Module ChurnDetector.

(** Ordered as declared; a Python [dict] iterates in insertion order. *)
Definition CHURN_SIGNALS : list (string * list str) :=
  [ ("alta"%string, map u
      [ "nunca mais"; "não compro"; "não volto"; "péssimo"; "golpe";
        "fraude"; "processarei"; "procon"; "juizado"; "reclame aqui";
        "cancelei"; "devolvi"; "não recomendo"; "horrível"; "lixo";
        "pior compra"; "arrependimento total"; "dinheiro jogado fora"
      ]%string);
    ("media"%string, map u
      [ "decepcionado"; "decepção"; "arrependido"; "arrependimento";
        "não vale"; "não recomendo"; "insatisfeito"; "frustrado";
        "esperava mais"; "propaganda enganosa"; "mentira"; "enganação";
        "não presta"; "muito ruim"; "mal feito"
      ]%string);
    ("baixa"%string, map u
      [ "poderia ser melhor"; "esperava mais"; "deixou a desejar";
        "não é o que parece"; "não gostei"; "não atendeu";
        "demora"; "demorado"; "atraso"; "atrasado"
      ]%string) ].

Definition PROBLEM_ASPECTS : list (string * list str) :=
  [ ("qualidade"%string, map u
      [ "quebrou"; "defeito"; "quebrado"; "estragou"; "não funciona";
        "parou de funcionar"; "ruim"; "fraco"; "frágil"; "mal feito"
      ]%string);
    ("entrega"%string, map u
      [ "não chegou"; "não recebi"; "atraso"; "demora"; "perdido";
        "extraviado"; "atrasado"; "prazo"; "não entregaram"
      ]%string);
    ("atendimento"%string, map u
      [ "não respondem"; "mal atendido"; "grosseiro"; "não resolve";
        "não ajuda"; "ignoram"; "não atende"; "péssimo atendimento"
      ]%string);
    ("preco"%string, map u
      [ "caro demais"; "muito caro"; "não vale o preço"; "superfaturado";
        "abuso"; "preço abusivo"; "cobrou a mais"
      ]%string) ].

Record signals : Type := {
  alta_gravidade : nat;
  media_gravidade : nat;
  baixa_gravidade : nat
}.

Record result : Type := {
  churn_score : Q;
  risk_level : string;
  problem_aspects : list string;
  main_reasons : list str;
  signals_detected : signals;
  is_critical : bool
}.

Definition _no_risk_result : result := {|
  churn_score := 0.0%Q;
  risk_level := "sem_risco";
  problem_aspects := [];
  main_reasons := [];
  signals_detected :=
    {| alta_gravidade := 0; media_gravidade := 0; baixa_gravidade := 0 |};
  is_critical := false
|}.

Definition _classify_risk (churn_score : Q) (rating : Z) (sentiment : string)
  : string :=
  if String.eqb sentiment "positivo" && (4 <=? rating)%Z then "sem_risco"
  else if Qle_bool 40 churn_score
          || ((rating <=? 2)%Z && Qle_bool 20 churn_score)
  then "alto_risco"
  else if Qle_bool 20 churn_score
          || ((rating =? 3)%Z && Qle_bool 10 churn_score)
  then "medio_risco"
  else if negb (Qle_bool churn_score 0) || (rating <=? 3)%Z
  then "baixo_risco"
  else "sem_risco".

Definition _detect_problem_aspects (text : str) : list string :=
  map fst
    (filter (fun item => existsb (fun keyword => contains keyword text)
                                 (snd item))
            PROBLEM_ASPECTS).

(** One of the three loops of [_extract_main_reasons]: append the
    signals found in [text], leaving the loop once three reasons are
    collected. *)
Fixpoint collect (sigs : list str) (text : str) (reasons : list str)
  : list str :=
  match sigs with
  | [] => reasons
  | signal :: rest =>
      if contains signal text then
        let reasons' := reasons ++ [signal] in
        if 3 <=? List.length reasons' then reasons'
        else collect rest text reasons'
      else collect rest text reasons
  end.

Definition _extract_main_reasons (text : str) (alta media baixa : nat)
  : list str :=
  let reasons := [] in
  let reasons :=
    if 0 <? alta then collect (getitem CHURN_SIGNALS "alta") text reasons
    else reasons in
  let reasons :=
    if (List.length reasons <? 3) && (0 <? media)
    then collect (getitem CHURN_SIGNALS "media") text reasons
    else reasons in
  let reasons :=
    if (List.length reasons <? 3) && (0 <? baixa)
    then collect (getitem CHURN_SIGNALS "baixa") text reasons
    else reasons in
  firstn 3 reasons.

Section Detect.
Variable U : unicode.

Definition detect_churn_risk (text : pyobj) (rating : Z)
           (sentiment : string) : result :=
  if negb (truthy text) || negb (isinstance_str text)
  then _no_risk_result
  else
    let text_lower := str_lower U (as_str text) in
    let alta_count := count_in (getitem CHURN_SIGNALS "alta") text_lower in
    let media_count := count_in (getitem CHURN_SIGNALS "media") text_lower in
    let baixa_count := count_in (getitem CHURN_SIGNALS "baixa") text_lower in
    let churn_score :=
      of_nat (alta_count * 30 + media_count * 15 + baixa_count * 5) in
    let churn_score := py_min churn_score 100 in
    let churn_score :=
      if (rating <=? 2)%Z then (churn_score * 1.5)%Q
      else if (rating =? 3)%Z then (churn_score * 1.2)%Q
      else churn_score in
    let churn_score := py_min churn_score 100 in
    let problem_aspects := _detect_problem_aspects text_lower in
    let risk_level := _classify_risk churn_score rating sentiment in
    let main_reasons :=
      _extract_main_reasons text_lower alta_count media_count baixa_count in
    {| churn_score := round2 churn_score;
       risk_level := risk_level;
       problem_aspects := problem_aspects;
       main_reasons := main_reasons;
       signals_detected :=
         {| alta_gravidade := alta_count;
            media_gravidade := media_count;
            baixa_gravidade := baixa_count |};
       is_critical := String.eqb risk_level "alto_risco" |}.
End Detect.

End ChurnDetector.
(* ===================================================================== *)
(** * analysis/opportunity_finder.py                                      *)
(* ===================================================================== *)

Module OpportunityFinder.

Definition UPSELL_SIGNALS : list str := map u
  [ "vou comprar"; "comprarei"; "quero comprar"; "vou pegar";
    "versão maior"; "modelo maior"; "próxima compra"; "quero outro";
    "precisando de outro"; "comprar mais"; "já estou de olho";
    "próximo será"; "vou trocar por" ]%string.

Definition CROSS_SELL_SIGNALS : list str := map u
  [ "combina com"; "agora preciso"; "falta só"; "vou comprar também";
    "agora falta"; "próximo passo"; "agora quero"; "complementa";
    "junto com"; "para acompanhar"; "pensando em pegar" ]%string.

Definition LOYALTY_SIGNALS : list str := map u
  [ "sempre compro"; "cliente fiel"; "toda vez"; "compro sempre";
    "já é a segunda"; "já é o terceiro"; "compro todo mês";
    "cliente há anos"; "confio"; "só compro aqui"; "minha marca favorita";
    "não troco"; "única loja"; "só compro dessa marca" ]%string.

Definition BRAND_ADVOCATE_SIGNALS : list str := map u
  [ "indiquei"; "recomendo"; "recomendei"; "toda família";
    "todos da família"; "todo mundo"; "já indiquei"; "super recomendo";
    "recomendo muito"; "indico"; "todo mundo deveria"; "todos deveriam";
    "melhor que existe"; "não existe melhor"; "compartilhei";
    "mostrei para"; "convenci" ]%string.

Definition EXCEPTIONAL_SATISFACTION : list str := map u
  [ "superou"; "excedeu"; "além das expectativas"; "melhor que esperado";
    "surpreendeu"; "impressionado"; "incrível"; "perfeito"; "impecável";
    "maravilhoso"; "sensacional"; "fantástico"; "excepcional" ]%string.

Record signals : Type := {
  upsell : nat;
  cross_sell : nat;
  loyalty : nat;
  brand_advocate : nat;
  exceptional_satisfaction : nat
}.

Record result : Type := {
  opportunity_score : Q;
  opportunity_level : string;
  opportunity_types : list string;
  customer_profile : string;
  signals_detected : signals;
  is_high_value : bool
}.

Definition _no_opportunity_result : result := {|
  opportunity_score := 0.0%Q;
  opportunity_level := "sem_oportunidade";
  opportunity_types := [];
  customer_profile := "cliente_comum";
  signals_detected :=
    {| upsell := 0; cross_sell := 0; loyalty := 0; brand_advocate := 0;
       exceptional_satisfaction := 0 |};
  is_high_value := false
|}.

Definition _classify_opportunity (score : Q) (rating : Z)
           (sentiment : string) : string :=
  if String.eqb sentiment "negativo" || (rating <? 4)%Z
  then "sem_oportunidade"
  else if Qle_bool 50 score || ((rating =? 5)%Z && Qle_bool 30 score)
  then "alta_oportunidade"
  else if Qle_bool 25 score || ((rating =? 5)%Z && Qle_bool 15 score)
  then "media_oportunidade"
  else if negb (Qle_bool score 0)
  then "baixa_oportunidade"
  else "sem_oportunidade".

Definition _identify_opportunity_types
           (upsell cross_sell loyalty advocate exceptional : nat)
  : list string :=
  let types := [] in
  let types := if 0 <? upsell then types ++ ["upsell"%string] else types in
  let types :=
    if 0 <? cross_sell then types ++ ["cross_sell"%string] else types in
  let types :=
    if 0 <? loyalty then types ++ ["fidelidade"%string] else types in
  let types :=
    if 0 <? advocate then types ++ ["advogado_marca"%string] else types in
  let types :=
    if 0 <? exceptional then types ++ ["satisfacao_excepcional"%string]
    else types in
  types.

Definition _profile_customer (loyalty advocate exceptional : nat) : string :=
  let total_signals := loyalty + advocate + exceptional in
  if (2 <=? advocate) || ((1 <=? advocate) && (1 <=? loyalty))
  then "advogado_marca"
  else if (2 <=? loyalty) || ((1 <=? loyalty) && (1 <=? exceptional))
  then "cliente_fiel"
  else if 2 <=? exceptional then "altamente_satisfeito"
  else if 0 <? total_signals then "cliente_satisfeito"
  else "cliente_comum".

Section Find.
Variable U : unicode.

Definition find_opportunities (text : pyobj) (rating : Z)
           (sentiment : string) : result :=
  if negb (truthy text) || negb (isinstance_str text)
  then _no_opportunity_result
  else
    let text_lower := str_lower U (as_str text) in
    let upsell_count := count_in UPSELL_SIGNALS text_lower in
    let cross_sell_count := count_in CROSS_SELL_SIGNALS text_lower in
    let loyalty_count := count_in LOYALTY_SIGNALS text_lower in
    let advocate_count := count_in BRAND_ADVOCATE_SIGNALS text_lower in
    let exceptional_count := count_in EXCEPTIONAL_SATISFACTION text_lower in
    let opportunity_score :=
      of_nat (upsell_count * 20 + cross_sell_count * 15
              + loyalty_count * 25 + advocate_count * 30
              + exceptional_count * 10) in
    let opportunity_score :=
      if (rating =? 5)%Z then (opportunity_score * 1.3)%Q
      else if (rating =? 4)%Z then (opportunity_score * 1.1)%Q
      else opportunity_score in
    let opportunity_score := py_min opportunity_score 100 in
    let opportunity_level :=
      _classify_opportunity opportunity_score rating sentiment in
    let opportunity_types :=
      _identify_opportunity_types upsell_count cross_sell_count
        loyalty_count advocate_count exceptional_count in
    let customer_profile :=
      _profile_customer loyalty_count advocate_count exceptional_count in
    {| opportunity_score := round2 opportunity_score;
       opportunity_level := opportunity_level;
       opportunity_types := opportunity_types;
       customer_profile := customer_profile;
       signals_detected :=
         {| upsell := upsell_count;
            cross_sell := cross_sell_count;
            loyalty := loyalty_count;
            brand_advocate := advocate_count;
            exceptional_satisfaction := exceptional_count |};
       is_high_value := String.eqb opportunity_level "alta_oportunidade" |}.
End Find.

End OpportunityFinder.

(* ===================================================================== *)
(** * preprocessing/category_extractor.py                                 *)
(* ===================================================================== *)

Module CategoryExtractor.

(** The declaration order is the iteration order of the dictionary. *)
Definition CATEGORY_KEYWORDS : list (string * list str) :=
  [ ("Smartphones"%string, map u
      [ "celular"; "smartphone"; "iphone"; "samsung"; "motorola";
        "moto g"; "galaxy"; "xiaomi"; "android"; "ios"; "fone";
        "bateria"; "camera"; "aplicativo"; "tela touch" ]%string);
    ("Notebooks e Computadores"%string, map u
      [ "notebook"; "laptop"; "computador"; "pc"; "desktop";
        "processador"; "memoria ram"; "ssd"; "hd"; "windows";
        "placa de video"; "cooler" ]%string);
    ("TVs e Monitores"%string, map u
      [ "tv"; "televisao"; "monitor"; "smart tv"; "led"; "lcd";
        "4k"; "hdmi"; "polegadas"; "controle remoto"; "netflix";
        "youtube"; "tela grande" ]%string);
    ("Eletrodomésticos"%string, map u
      [ "geladeira"; "freezer"; "microondas"; "fogao"; "forno";
        "liquidificador"; "batedeira"; "aspirador"; "lavadora";
        "ferro de passar"; "ar condicionado"; "ventilador"; "aquecedor"
      ]%string);
    ("Móveis"%string, map u
      [ "sofa"; "cama"; "colchao"; "mesa"; "cadeira"; "estante";
        "guarda-roupa"; "armario"; "rack"; "estofado"; "madeira";
        "movel"; "comoda" ]%string);
    ("Beleza e Saúde"%string, map u
      [ "shampoo"; "condicionador"; "perfume"; "maquiagem"; "creme";
        "protetor"; "cabelo"; "pele"; "hidratante"; "sabonete";
        "esmalte"; "batom"; "cosmetico" ]%string);
    ("Livros e Mídia"%string, map u
      [ "livro"; "romance"; "autor"; "paginas"; "leitura"; "historia";
        "capitulo"; "cd"; "dvd"; "filme"; "blu-ray" ]%string);
    ("Esporte e Lazer"%string, map u
      [ "bicicleta"; "bike"; "tenis"; "corrida"; "academia"; "peso";
        "exercicio"; "bola"; "esporte"; "treino" ]%string);
    ("Moda e Vestuário"%string, map u
      [ "roupa"; "camiseta"; "calca"; "vestido"; "sapato"; "bolsa";
        "tecido"; "tamanho"; "cor"; "estampa"; "moda" ]%string);
    ("Casa e Decoração"%string, map u
      [ "panela"; "cozinha"; "decoracao"; "quadro"; "vaso"; "tapete";
        "cortina"; "almofada"; "luminaria" ]%string);
    ("Informática e Acessórios"%string, map u
      [ "mouse"; "teclado"; "headset"; "webcam"; "impressora";
        "pen drive"; "cabo usb"; "adaptador"; "carregador" ]%string) ].

(** The loop that fills [scores]: a category is entered, in table
    order, when at least one of its keywords occurs. *)
Fixpoint fill_scores (table : list (string * list str)) (text_lower : str)
  : list (string * nat) :=
  match table with
  | [] => []
  | (category, keywords) :: rest =>
      let score := count_in keywords text_lower in
      if 0 <? score then (category, score) :: fill_scores rest text_lower
      else fill_scores rest text_lower
  end.

(** [max(scores, key=scores.get)] on a non-empty dictionary: the keys
    are visited in insertion order and the candidate is replaced only
    by a strictly larger one. *)
Fixpoint max_from (best : string * nat) (items : list (string * nat))
  : string * nat :=
  match items with
  | [] => best
  | item :: rest =>
      max_from (if snd best <? snd item then item else best) rest
  end.

Section Extract.
Variable U : unicode.

Definition extract_category (text : pyobj) : string * Q :=
  if negb (truthy text) || negb (isinstance_str text)
  then ("Outros"%string, 0.0%Q)
  else
    let text_lower := str_lower U (as_str text) in
    let scores := fill_scores CATEGORY_KEYWORDS text_lower in
    match scores with
    | [] => ("Outros"%string, 0.0%Q)
    | first :: rest =>
        let best := max_from first rest in
        let best_category := fst best in
        let confidence := py_min (of_nat (snd best) / 3)%Q 1.0%Q in
        (best_category, confidence)
    end.
End Extract.

End CategoryExtractor.
(* ===================================================================== *)
(** * preprocessing/text_cleaner.py                                       *)
(* ===================================================================== *)

Module TextCleaner.

Definition CONTRACTIONS : list (str * str) :=
  map (fun kv => (u (fst kv), u (snd kv)))
    [ ("tá", "está"); ("pra", "para"); ("pro", "para o");
      ("né", "não é"); ("vc", "você"); ("vcs", "vocês");
      ("mt", "muito"); ("mto", "muito"); ("tb", "também");
      ("tbm", "também"); ("q", "que"); ("oq", "o que");
      ("pq", "porque"); ("td", "tudo"); ("blz", "beleza");
      ("vlw", "valeu") ]%string.

(** [d.get(key, default)]. *)
Fixpoint dict_get (d : list (str * str)) (key default : str) : str :=
  match d with
  | [] => default
  | (k, v) :: d' => if str_eqb k key then v else dict_get d' key default
  end.

(** [' '.join(words)]. *)
Fixpoint join (words : list str) : str :=
  match words with
  | [] => []
  | [w] => w
  | w :: rest => w ++ 32%N :: join rest
  end.

(** The characters listed in the class of [_remove_special_chars]
    besides [\w] and [\s], and the class of its second pattern. *)
Definition LISTED : str := u "!?.,áàâãéèêíïóôõöúçñ-".
Definition PUNCT : str := u "!?.,-".

Definition mem (c : codepoint) (cls : str) : bool := existsb (N.eqb c) cls.
Definition is_punct (c : codepoint) : bool := mem c PUNCT.

Section Clean.
Variable U : unicode.

Definition nonspace_head (s : str) : bool :=
  match s with
  | [] => false
  | c :: _ => negb (isspace U c)
  end.

(** [re.sub(p, '', s)] for a pattern [p] each match of which runs to
    the end of the run of non-whitespace characters it begins in.
    [starts s] tells whether a match of [p] begins at the head of
    [s]; [inside] is set while a match is being deleted.  Matches are
    taken leftmost and do not overlap. *)
Fixpoint delete_matches (starts : str -> bool) (inside : bool) (s : str)
  : str :=
  match s with
  | [] => []
  | c :: r =>
      if inside && negb (isspace U c) then delete_matches starts true r
      else if starts s then delete_matches starts true r
      else c :: delete_matches starts false r
  end.

(** A match of [https?://\S+|www\.\S+] begins here. *)
Definition www_at (s : str) : bool :=
  prefix (u "www.") s && nonspace_head (skipn 4 s).

Definition url_at (s : str) : bool :=
  (prefix (u "http://") s && nonspace_head (skipn 7 s))
  || (prefix (u "https://") s && nonspace_head (skipn 8 s))
  || www_at s.

Definition _remove_urls (text : str) : str :=
  delete_matches url_at false text.

(** Within the run of non-whitespace characters at the head of [s]
    there is an [@] followed by a non-whitespace character. *)
Fixpoint at_sign_ahead (s : str) : bool :=
  match s with
  | [] => false
  | c :: r =>
      negb (isspace U c)
      && (((c =? 64)%N && nonspace_head r) || at_sign_ahead r)
  end.

(** A match of [\S+@\S+] begins here. *)
Definition email_at (s : str) : bool :=
  match s with
  | [] => false
  | c :: r => negb (isspace U c) && at_sign_ahead r
  end.

Definition _remove_emails (text : str) : str :=
  delete_matches email_at false text.

(** [text.split()]: the maximal runs of non-whitespace characters;
    [word] is the run read so far. *)
Fixpoint split_from (word : str) (s : str) : list str :=
  match s with
  | [] => match word with [] => [] | _ => [word] end
  | c :: r =>
      if isspace U c
      then match word with
           | [] => split_from [] r
           | _ => word :: split_from [] r
           end
      else split_from (word ++ [c]) r
  end.

Definition split (s : str) : list str := split_from [] s.

Definition _expand_contractions (text : str) : str :=
  let words := split text in
  let expanded := map (fun word => dict_get CONTRACTIONS word word) words in
  join expanded.

Definition _normalize_unicode (text : str) : str := normalize_nfkc U text.

(** Outside the class [[^\w\s!?.,áàâãéèêíïóôõöúçñ-]]. *)
Definition kept (c : codepoint) : bool :=
  isword U c || isspace U c || mem c LISTED.

(** [re.sub(r'[!?.,-]{2,}', ' ', s)]; [in_run] is set while a run
    that has already been replaced is being skipped. *)
Fixpoint sub_punct_runs (in_run : bool) (s : str) : str :=
  match s with
  | [] => []
  | c :: r =>
      if is_punct c then
        if in_run then sub_punct_runs true r
        else match r with
             | d :: _ =>
                 if is_punct d then 32%N :: sub_punct_runs true r
                 else c :: sub_punct_runs false r
             | [] => [c]
             end
      else c :: sub_punct_runs false r
  end.

Definition _remove_special_chars (text : str) : str :=
  let text := filter kept text in
  sub_punct_runs false text.

(** [re.sub(r'\s+', ' ', s)]; [in_run] is set after a whitespace
    character. *)
Fixpoint sub_space_runs (in_run : bool) (s : str) : str :=
  match s with
  | [] => []
  | c :: r =>
      if isspace U c then
        if in_run then sub_space_runs true r
        else 32%N :: sub_space_runs true r
      else c :: sub_space_runs false r
  end.

Definition _remove_extra_spaces (text : str) : str :=
  sub_space_runs false text.

Fixpoint lstrip (s : str) : str :=
  match s with
  | [] => []
  | c :: r => if isspace U c then lstrip r else s
  end.

Fixpoint rstrip (s : str) : str :=
  match s with
  | [] => []
  | c :: r =>
      match rstrip r with
      | [] => if isspace U c then [] else [c]
      | r' => c :: r'
      end
  end.

(** [s.strip()]. *)
Definition strip (s : str) : str := rstrip (lstrip s).

(** [text] is a [str], or a missing value ([None], [NaN]) on which
    [pd.isna] holds. *)
Definition clean_text (text : option str) : str :=
  match text with
  | None => []
  | Some text =>
      let text := str_lower U text in
      let text := _remove_urls text in
      let text := _remove_emails text in
      let text := _expand_contractions text in
      let text := _normalize_unicode text in
      let text := _remove_special_chars text in
      let text := _remove_extra_spaces text in
      strip text
  end.
End Clean.

End TextCleaner.
(* ===================================================================== *)
(** * Properties of the number model                                      *)
(* ===================================================================== *)

Lemma py_min_cases (a b : Q) :
((a <= b)%Q /\ py_min a b = a) \/ ((b < a)%Q /\ py_min a b = b).
Proof.
unfold py_min. destruct (Qle_bool a b) eqn:E.
- left. split; [now apply Qle_bool_iff | reflexivity].
- right. split; [| reflexivity].
  apply Qnot_le_lt. intro H. apply Qle_bool_iff in H. congruence.
Qed.

(** Rounding stays between any two integers that enclose the number. *)
Lemma round_half_even_bounds (q : Q) (a b : Z) :
(inject_Z a <= q)%Q -> (q <= inject_Z b)%Q ->
(a <= round_half_even q <= b)%Z.
Proof.
destruct q as [n d]. unfold Qle, round_half_even. cbn [Qnum Qden inject_Z].
intros Ha Hb.
pose proof (Z.div_mod n (Zpos d) ltac:(lia)) as Hdm.
pose proof (Z.mod_pos_bound n (Zpos d) ltac:(lia)) as Hr.
set (f := (n / Zpos d)%Z) in *. set (r := (n mod Zpos d)%Z) in *.
assert (Hf : (a <= f)%Z) by nia.
assert (Hf' : (f <= b)%Z) by nia.
assert (Hup : (0 < r -> f + 1 <= b)%Z) by nia.
destruct (2 * r <? Zpos d)%Z eqn:E1; [lia |].
apply Z.ltb_ge in E1.
destruct (Zpos d <? 2 * r)%Z; [lia |].
destruct (Z.even f); lia.
Qed.

(** An integer is its own rounding. *)
Lemma round_half_even_integer (q : Q) (z : Z) :
(q == inject_Z z)%Q -> round_half_even q = z.
Proof.
destruct q as [n d]. unfold Qeq, round_half_even. cbn [Qnum Qden inject_Z].
intros H. assert (Hn : n = (z * Zpos d)%Z) by lia. subst n.
rewrite Z.div_mul, Z.mod_mul by lia.
reflexivity.
Qed.

(** [round(x, 2)] leaves a number with at most two decimals unchanged. *)
Lemma round2_exact (x : Q) (z : Z) :
(x * 100 == inject_Z z)%Q -> (round2 x == x)%Q.
Proof.
intros H. unfold round2. rewrite (round_half_even_integer _ _ H).
destruct x as [n d]. revert H. unfold Qeq. cbn. lia.
Qed.

Lemma round2_tenths (z : Z) : (round2 (z # 10) == z # 10)%Q.
Proof. apply round2_exact with (z := (z * 10)%Z). unfold Qeq. cbn. lia. Qed.

Lemma round2_of_tenths (x : Q) (z : Z) :
  (x == z # 10)%Q -> (round2 x == z # 10)%Q.
Proof.
  intros H. rewrite <- H. apply round2_exact with (z := (z * 10)%Z).
  rewrite H. unfold Qeq. cbn. lia.
Qed.

Ltac case_py_min a b :=
  destruct (py_min_cases a b) as [[? ->] | [? ->]].

Ltac case_outer_py_min :=
  match goal with |- context [py_min ?a ?b] => case_py_min a b end.

Ltac q2z :=
  unfold Qeq, Qle, Qlt, Qmult, Qdiv, Qinv, of_nat, inject_Z in *;
  cbn [Qnum Qden] in *; lia.

(* ===================================================================== *)
(** * Properties of the churn detector                                    *)
(* ===================================================================== *)

Module ChurnFacts.
Import ChurnDetector.

(** The score in tenths, as a function of the three counts and the
    rating: the weighted sum, capped, scaled by the rating factor,
    capped again. *)
Definition factor (rating : Z) : Z :=
  if (rating <=? 2)%Z then 15 else if (rating =? 3)%Z then 12 else 10.

Definition tenths (sg : signals) (rating : Z) : Z :=
  Z.min (factor rating
         * Z.min (Z.of_nat (alta_gravidade sg * 30 + media_gravidade sg * 15
                            + baixa_gravidade sg * 5)) 100) 1000.

Lemma churn_unrounded (n : nat) (rating : Z) :
  (py_min (if (rating <=? 2)%Z then py_min (of_nat n) 100 * 1.5
           else if (rating =? 3)%Z then py_min (of_nat n) 100 * 1.2
           else py_min (of_nat n) 100) 100
   == Z.min (factor rating * Z.min (Z.of_nat n) 100) 1000 # 10)%Q.
Proof.
  unfold factor. case_py_min (of_nat n) 100%Q;
    (destruct (rating <=? 2)%Z; [| destruct (rating =? 3)%Z]);
    case_outer_py_min; q2z.
Qed.

Section Facts.
Variable U : unicode.

(** On a non-empty string the detector runs its scoring path. *)
Lemma detect_on_text (text : pyobj) (rating : Z) (sentiment : string) :
  truthy text = true -> isinstance_str text = true ->
  detect_churn_risk U text rating sentiment =
  let text_lower := str_lower U (as_str text) in
  let alta_count := count_in (getitem CHURN_SIGNALS "alta") text_lower in
  let media_count := count_in (getitem CHURN_SIGNALS "media") text_lower in
  let baixa_count := count_in (getitem CHURN_SIGNALS "baixa") text_lower in
  let churn_score :=
    py_min
      (let churn_score :=
         py_min
           (of_nat (alta_count * 30 + media_count * 15 + baixa_count * 5))
           100 in
       if (rating <=? 2)%Z then (churn_score * 1.5)%Q
       else if (rating =? 3)%Z then (churn_score * 1.2)%Q
       else churn_score) 100 in
  let risk_level := _classify_risk churn_score rating sentiment in
  {| churn_score := round2 churn_score;
     risk_level := risk_level;
     problem_aspects := _detect_problem_aspects text_lower;
     main_reasons :=
       _extract_main_reasons text_lower alta_count media_count baixa_count;
     signals_detected :=
       {| alta_gravidade := alta_count;
          media_gravidade := media_count;
          baixa_gravidade := baixa_count |};
     is_critical := String.eqb risk_level "alto_risco" |}.
Proof.
  intros Ht Hs. unfold detect_churn_risk. rewrite Ht, Hs. reflexivity.
Qed.

(** Anything else gets the default record. *)
Lemma detect_on_other (text : pyobj) (rating : Z) (sentiment : string) :
  truthy text && isinstance_str text = false ->
  detect_churn_risk U text rating sentiment = _no_risk_result.
Proof.
  intros H. unfold detect_churn_risk.
  destruct (truthy text), (isinstance_str text);
    try discriminate; reflexivity.
Qed.

Lemma tenths_no_risk (rating : Z) :
  tenths (signals_detected _no_risk_result) rating = 0%Z.
Proof.
  unfold tenths, factor. cbn.
  destruct (rating <=? 2)%Z; [| destruct (rating =? 3)%Z]; reflexivity.
Qed.

(** The returned score is the score in tenths, on every path. *)
Lemma churn_score_tenths (text : pyobj) (rating : Z) (sentiment : string) :
  let r := detect_churn_risk U text rating sentiment in
  (churn_score r == tenths (signals_detected r) rating # 10)%Q.
Proof.
  cbv zeta.
  destruct (truthy text && isinstance_str text) eqn:E.
  - apply andb_prop in E as [Ht Hs].
    rewrite (detect_on_text _ _ _ Ht Hs). cbv zeta.
    cbn [churn_score signals_detected alta_gravidade media_gravidade
         baixa_gravidade]. unfold tenths.
    cbn [alta_gravidade media_gravidade baixa_gravidade].
    apply round2_of_tenths, churn_unrounded.
  - rewrite (detect_on_other _ _ _ E), tenths_no_risk. reflexivity.
Qed.

Lemma churn_tenths_range (sg : signals) (rating : Z) :
  (0 <= tenths sg rating <= 1000)%Z.
Proof.
  unfold tenths, factor.
  destruct (rating <=? 2)%Z; [| destruct (rating =? 3)%Z]; lia.
Qed.

Lemma churn_score_range (text : pyobj) (rating : Z) (sentiment : string) :
  (0 <= churn_score (detect_churn_risk U text rating sentiment) <= 100)%Q.
Proof.
  pose proof (churn_score_tenths text rating sentiment) as H.
  cbv zeta in H. rewrite H.
  pose proof (churn_tenths_range
                (signals_detected
                   (detect_churn_risk U text rating sentiment)) rating).
  split; q2z.
Qed.

End Facts.
End ChurnFacts.

(* ===================================================================== *)
(** * Properties of the opportunity finder                                *)
(* ===================================================================== *)

Module OpportunityFacts.
Import OpportunityFinder.

Definition factor (rating : Z) : Z :=
  if (rating =? 5)%Z then 13 else if (rating =? 4)%Z then 11 else 10.

Definition tenths (sg : signals) (rating : Z) : Z :=
  Z.min (factor rating
         * Z.of_nat (upsell sg * 20 + cross_sell sg * 15 + loyalty sg * 25
                     + brand_advocate sg * 30
                     + exceptional_satisfaction sg * 10)) 1000.

(** The level classification as the specification words it: an ordered
    list of rules, the first whose condition holds gives the level. *)
Definition rule : Type := (Q -> Z -> string -> bool) * string.

Definition documented_rules : list rule :=
  [ (fun score rating sentiment =>
       String.eqb sentiment "negativo" || (rating <? 4)%Z,
     "sem_oportunidade"%string);
    (fun score rating sentiment =>
       Qle_bool 50 score || ((rating =? 5)%Z && Qle_bool 30 score),
     "alta_oportunidade"%string);
    (fun score rating sentiment =>
       Qle_bool 25 score || ((rating =? 5)%Z && Qle_bool 15 score),
     "media_oportunidade"%string);
    (fun score rating sentiment => negb (Qle_bool score 0),
     "baixa_oportunidade"%string) ].

Fixpoint first_match (rules : list rule) (otherwise : string)
         (score : Q) (rating : Z) (sentiment : string) : string :=
  match rules with
  | [] => otherwise
  | (condition, level) :: rest =>
      if condition score rating sentiment then level
      else first_match rest otherwise score rating sentiment
  end.

Definition documented_level : Q -> Z -> string -> string :=
  first_match documented_rules "sem_oportunidade".

Lemma opportunity_unrounded (n : nat) (rating : Z) :
  (py_min (if (rating =? 5)%Z then of_nat n * 1.3
           else if (rating =? 4)%Z then of_nat n * 1.1
           else of_nat n) 100
   == Z.min (factor rating * Z.of_nat n) 1000 # 10)%Q.
Proof.
  unfold factor.
  destruct (rating =? 5)%Z; [| destruct (rating =? 4)%Z];
    case_outer_py_min; q2z.
Qed.

Lemma classify_is_documented (score : Q) (rating : Z) (sentiment : string) :
  _classify_opportunity score rating sentiment
  = documented_level score rating sentiment.
Proof. reflexivity. Qed.

Lemma documented_level_compat (x y : Q) (rating : Z) (sentiment : string) :
  (x == y)%Q ->
  documented_level x rating sentiment = documented_level y rating sentiment.
Proof.
  intros H. unfold documented_level, documented_rules, first_match.
  rewrite !(Qleb_comp _ _ (Qeq_refl _) x y H).
  rewrite (Qleb_comp x y H _ _ (Qeq_refl 0%Q)).
  reflexivity.
Qed.

Section Facts.
Variable U : unicode.

Lemma find_on_text (text : pyobj) (rating : Z) (sentiment : string) :
  truthy text = true -> isinstance_str text = true ->
  find_opportunities U text rating sentiment =
  let text_lower := str_lower U (as_str text) in
  let upsell_count := count_in UPSELL_SIGNALS text_lower in
  let cross_sell_count := count_in CROSS_SELL_SIGNALS text_lower in
  let loyalty_count := count_in LOYALTY_SIGNALS text_lower in
  let advocate_count := count_in BRAND_ADVOCATE_SIGNALS text_lower in
  let exceptional_count := count_in EXCEPTIONAL_SATISFACTION text_lower in
  let opportunity_score :=
    py_min
      (let opportunity_score :=
         of_nat (upsell_count * 20 + cross_sell_count * 15
                 + loyalty_count * 25 + advocate_count * 30
                 + exceptional_count * 10) in
       if (rating =? 5)%Z then (opportunity_score * 1.3)%Q
       else if (rating =? 4)%Z then (opportunity_score * 1.1)%Q
       else opportunity_score) 100 in
  let opportunity_level :=
    _classify_opportunity opportunity_score rating sentiment in
  {| opportunity_score := round2 opportunity_score;
     opportunity_level := opportunity_level;
     opportunity_types :=
       _identify_opportunity_types upsell_count cross_sell_count
         loyalty_count advocate_count exceptional_count;
     customer_profile :=
       _profile_customer loyalty_count advocate_count exceptional_count;
     signals_detected :=
       {| upsell := upsell_count;
          cross_sell := cross_sell_count;
          loyalty := loyalty_count;
          brand_advocate := advocate_count;
          exceptional_satisfaction := exceptional_count |};
     is_high_value := String.eqb opportunity_level "alta_oportunidade" |}.
Proof.
  intros Ht Hs. unfold find_opportunities. rewrite Ht, Hs. reflexivity.
Qed.

Lemma find_on_other (text : pyobj) (rating : Z) (sentiment : string) :
  truthy text && isinstance_str text = false ->
  find_opportunities U text rating sentiment = _no_opportunity_result.
Proof.
  intros H. unfold find_opportunities.
  destruct (truthy text), (isinstance_str text);
    try discriminate; reflexivity.
Qed.

Lemma tenths_no_opportunity (rating : Z) :
  tenths (signals_detected _no_opportunity_result) rating = 0%Z.
Proof.
  unfold tenths, factor. cbn.
  destruct (rating =? 5)%Z; [| destruct (rating =? 4)%Z]; reflexivity.
Qed.

Lemma opportunity_score_tenths
      (text : pyobj) (rating : Z) (sentiment : string) :
  let r := find_opportunities U text rating sentiment in
  (opportunity_score r == tenths (signals_detected r) rating # 10)%Q.
Proof.
  cbv zeta.
  destruct (truthy text && isinstance_str text) eqn:E.
  - apply andb_prop in E as [Ht Hs].
    rewrite (find_on_text _ _ _ Ht Hs). cbv zeta.
    cbn [opportunity_score signals_detected]. unfold tenths.
    cbn [upsell cross_sell loyalty brand_advocate exceptional_satisfaction].
    apply round2_of_tenths, opportunity_unrounded.
  - rewrite (find_on_other _ _ _ E), tenths_no_opportunity. reflexivity.
Qed.

Lemma opportunity_tenths_range (sg : signals) (rating : Z) :
  (0 <= tenths sg rating <= 1000)%Z.
Proof.
  unfold tenths, factor.
  destruct (rating =? 5)%Z; [| destruct (rating =? 4)%Z]; lia.
Qed.

Lemma opportunity_score_range
      (text : pyobj) (rating : Z) (sentiment : string) :
  (0 <= opportunity_score (find_opportunities U text rating sentiment)
   <= 100)%Q.
Proof.
  pose proof (opportunity_score_tenths text rating sentiment) as H.
  cbv zeta in H. rewrite H.
  pose proof (opportunity_tenths_range
                (signals_detected
                   (find_opportunities U text rating sentiment)) rating).
  split; q2z.
Qed.

End Facts.
End OpportunityFacts.

(* ===================================================================== *)
(** * Properties of the category extractor                                *)
(* ===================================================================== *)

Module CategoryFacts.
Import CategoryExtractor.

Section Argmax.
Variable text : str.

Let hits (kws : list str) : nat := count_in kws text.

(** [cat], with [n] matches, is the first entry of [table] whose
    number of matches is the largest one, and that number is not 0. *)
Definition first_maximal (table : list (string * list str))
           (cat : string) (n : nat) : Prop :=
  exists before kws after,
    table = before ++ (cat, kws) :: after
    /\ n = hits kws /\ 0 < n
    /\ (forall c k, In (c, k) before -> hits k < n)
    /\ (forall c k, In (c, k) after -> hits k <= n).

Lemma first_maximal_keep table cat n c k :
  first_maximal table cat n -> hits k <= n ->
  first_maximal (table ++ [(c, k)]) cat n.
Proof.
  intros (before & kws & after & -> & Hn & Hpos & Hb & Ha) Hk.
  exists before, kws, (after ++ [(c, k)]). repeat split; auto.
  - now rewrite <- app_assoc.
  - intros c' k' Hin. apply in_app_or in Hin as [Hin | [Hin | []]].
    + eauto.
    + now inversion Hin; subst.
Qed.

Lemma first_maximal_replace table cat n c k :
  first_maximal table cat n -> n < hits k ->
  first_maximal (table ++ [(c, k)]) c (hits k).
Proof.
  intros (before & kws & after & -> & Hn & Hpos & Hb & Ha) Hk.
  exists (before ++ (cat, kws) :: after), k, []. repeat split; auto.
  - lia.
  - intros c' k' Hin.
    apply in_app_or in Hin as [Hin | [Hin | Hin]].
    + specialize (Hb _ _ Hin). lia.
    + inversion Hin; subst. assumption.
    + specialize (Ha _ _ Hin). lia.
  - intros c' k' [].
Qed.

Lemma first_maximal_start table c k :
  (forall c' k', In (c', k') table -> hits k' = 0) -> 0 < hits k ->
  first_maximal (table ++ [(c, k)]) c (hits k).
Proof.
  intros Hz Hk. exists table, k, []. repeat split; auto.
  - intros c' k' Hin. rewrite (Hz _ _ Hin). assumption.
  - intros c' k' [].
Qed.

(** The search of [max] keeps the first maximal entry of what it has
    seen. *)
Lemma max_from_first_maximal rest :
  forall seen best,
    first_maximal seen (fst best) (snd best) ->
    let w := max_from best (fill_scores rest text) in
    first_maximal (seen ++ rest) (fst w) (snd w).
Proof.
  induction rest as [| [c k] rest IH]; intros seen best Hbest; cbn zeta.
  - now rewrite app_nil_r.
  - cbn [fill_scores]. fold (hits k).
    replace (seen ++ (c, k) :: rest) with ((seen ++ [(c, k)]) ++ rest)
      by now rewrite <- app_assoc.
    destruct (0 <? hits k) eqn:Epos.
    + cbn [max_from snd]. destruct (snd best <? hits k) eqn:Elt.
      * apply Nat.ltb_lt in Elt. apply IH. cbn [fst snd].
        eapply first_maximal_replace; eauto.
      * apply Nat.ltb_ge in Elt. apply IH.
        now apply first_maximal_keep.
    + apply Nat.ltb_ge in Epos. apply IH.
      apply first_maximal_keep; [assumption |].
      destruct Hbest as (_ & _ & _ & _ & _ & ? & _). lia.
Qed.

Lemma fill_scores_first_maximal rest :
  forall seen,
    (forall c k, In (c, k) seen -> hits k = 0) ->
    match fill_scores rest text with
    | [] => forall c k, In (c, k) (seen ++ rest) -> hits k = 0
    | first :: others =>
        let w := max_from first others in
        first_maximal (seen ++ rest) (fst w) (snd w)
    end.
Proof.
  induction rest as [| [c k] rest IH]; intros seen Hz.
  - cbn. intros c k Hin. rewrite app_nil_r in Hin. eauto.
  - cbn [fill_scores]. fold (hits k).
    replace (seen ++ (c, k) :: rest) with ((seen ++ [(c, k)]) ++ rest)
      by now rewrite <- app_assoc.
    destruct (0 <? hits k) eqn:Epos.
    + apply Nat.ltb_lt in Epos.
      apply (max_from_first_maximal rest (seen ++ [(c, k)]) (c, hits k)).
      now apply first_maximal_start.
    + apply Nat.ltb_ge in Epos. apply IH.
      intros c' k' Hin. apply in_app_or in Hin as [Hin | [Hin | []]].
      * eauto.
      * inversion Hin; subst. unfold hits in *. lia.
Qed.

Lemma fill_scores_as_filter table :
  fill_scores table text
  = filter (fun item => 0 <? snd item)
           (map (fun entry => (fst entry, hits (snd entry))) table).
Proof.
  induction table as [| [c k] table IH]; [reflexivity |].
  cbn [fill_scores map filter fst snd]. fold (hits k).
  destruct (0 <? hits k); now rewrite IH.
Qed.

End Argmax.

(** Every key of the table is looked up to its own keyword list, and
    none of them is the fallback name. *)
Lemma table_entry (c : string) (k : list str) :
  In (c, k) CATEGORY_KEYWORDS ->
  getitem CATEGORY_KEYWORDS c = k /\ c <> "Outros"%string.
Proof.
  unfold CATEGORY_KEYWORDS. cbn [In].
  intros H.
  repeat (destruct H as [H | H];
          [inversion H; subst; split; [reflexivity | discriminate] |]).
  destruct H.
Qed.

(** The confidence of [n] matches. *)
Lemma confidence_values (n : nat) :
  0 < n ->
  let confidence := py_min (of_nat n / 3)%Q 1.0%Q in
  ~ (confidence == 0)%Q
  /\ ((confidence == 1 # 3)%Q \/ (confidence == 2 # 3)%Q
      \/ (confidence == 1)%Q).
Proof.
  intros Hn. cbv zeta.
  destruct n as [| [| [| [| n]]]]; try lia.
  - split; [| left]; vm_compute; congruence.
  - split; [| right; left]; vm_compute; congruence.
  - split; [| right; right]; vm_compute; congruence.
  - assert (E : py_min (of_nat (S (S (S (S n)))) / 3)%Q 1.0%Q = 1.0%Q).
    { case_outer_py_min; [| reflexivity].
      exfalso. revert H. unfold Qle, Qdiv, Qmult, Qinv, of_nat, inject_Z.
      cbn [Qnum Qden]. lia. }
    rewrite E. split; [| right; right]; vm_compute; congruence.
Qed.

Section Facts.
Variable U : unicode.

Lemma extract_on_text (s : str) :
  s <> [] ->
  extract_category U (PyStr s) =
  match fill_scores CATEGORY_KEYWORDS (str_lower U s) with
  | [] => ("Outros"%string, 0.0%Q)
  | first :: rest =>
      (fst (max_from first rest),
       py_min (of_nat (snd (max_from first rest)) / 3)%Q 1.0%Q)
  end.
Proof. destruct s; [congruence | reflexivity]. Qed.

Lemma extract_on_other (text : pyobj) :
  truthy text && isinstance_str text = false ->
  extract_category U text = ("Outros"%string, 0.0%Q).
Proof.
  intros H. unfold extract_category.
  destruct (truthy text), (isinstance_str text);
    try discriminate; reflexivity.
Qed.

(** The result is either the fallback pair, or the first maximal
    category with the confidence of its count. *)
Lemma extract_category_cases (text : pyobj) :
  extract_category U text = ("Outros"%string, 0.0%Q)
  \/ exists s cat n,
       text = PyStr s /\ s <> []
       /\ first_maximal (str_lower U s) CATEGORY_KEYWORDS cat n
       /\ extract_category U text
          = (cat, py_min (of_nat n / 3)%Q 1.0%Q).
Proof.
  destruct text as [| s | b]; try (left; apply extract_on_other;
                                   destruct b; reflexivity).
  - left. reflexivity.
  - destruct s as [| ch s]; [left; reflexivity |].
    rewrite extract_on_text by discriminate.
    pose proof (fill_scores_first_maximal (str_lower U (ch :: s))
                  CATEGORY_KEYWORDS [] ltac:(intros ? ? [])) as H.
    destruct (fill_scores CATEGORY_KEYWORDS (str_lower U (ch :: s)))
      as [| first rest]; [now left | right].
    exists (ch :: s), (fst (max_from first rest)),
      (snd (max_from first rest)).
    repeat split; [discriminate | exact H].
Qed.

End Facts.
End CategoryFacts.

(* ===================================================================== *)
(** * Properties of the text cleaner                                      *)
(* ===================================================================== *)

Module CleanerFacts.
Import TextCleaner.

Definition head_is (p : codepoint -> bool) (s : str) : bool :=
  match s with
  | [] => false
  | c :: _ => p c
  end.

(** No two neighbours of [s] are both in the class [p]. *)
Fixpoint no_adjacent (p : codepoint -> bool) (s : str) : bool :=
  match s with
  | [] => true
  | c :: r => negb (p c && head_is p r) && no_adjacent p r
  end.

(** [word] is a key of [CONTRACTIONS]. *)
Definition is_contraction (word : str) : bool :=
  existsb (fun kv => str_eqb (fst kv) word) CONTRACTIONS.

(** No match of the pattern recognised by [starts] begins in [s]. *)
Fixpoint never (starts : str -> bool) (s : str) : Prop :=
  starts s = false /\ match s with [] => True | _ :: r => never starts r end.

Lemma PUNCT_chars : PUNCT = [33; 63; 46; 44; 45]%N.
Proof. reflexivity. Qed.

Lemma is_punct_cases (c : codepoint) :
  is_punct c = true ->
  c = 33%N \/ c = 63%N \/ c = 46%N \/ c = 44%N \/ c = 45%N.
Proof.
  unfold is_punct, mem. rewrite PUNCT_chars. cbn [existsb].
  rewrite orb_false_r, !orb_true_iff, !N.eqb_eq. tauto.
Qed.

Lemma prefix_incl (p s : str) :
  prefix p s = true -> forall x, In x p -> In x s.
Proof.
  revert s. induction p as [| a p IH]; intros s H x Hx; [destruct Hx |].
  destruct s as [| b s]; [discriminate |]. cbn in H.
  apply andb_prop in H as [Hab Hp]. apply N.eqb_eq in Hab. subst b.
  destruct Hx as [-> | Hx]; [now left | right; eauto].
Qed.

Lemma no_adjacent_tail (p : codepoint -> bool) (c : codepoint) (r : str) :
  no_adjacent p (c :: r) = true -> no_adjacent p r = true.
Proof. cbn. intros H. now apply andb_prop in H. Qed.

Lemma no_adjacent_head (p : codepoint -> bool) (c : codepoint) (r : str) :
  no_adjacent p (c :: r) = true -> p c = true -> head_is p r = false.
Proof.
  cbn. intros H Hc. apply andb_prop in H as [H _]. rewrite Hc in H.
  now destruct (head_is p r).
Qed.

Lemma no_adjacent_cons (p : codepoint -> bool) (c : codepoint) (r : str) :
  (p c = true -> head_is p r = false) -> no_adjacent p r = true ->
  no_adjacent p (c :: r) = true.
Proof.
  intros H Hr. cbn. rewrite Hr, andb_true_r.
  destruct (p c); [now rewrite H | reflexivity].
Qed.

Section Facts.
Variable U : unicode.

Abbreviation blank := (isspace U).

(** What a cleaned text looks like: only characters of the kept
    class, the space as its only whitespace, no two punctuation marks
    and no two spaces next to each other, no space at either end. *)
Definition plain (c : codepoint) : Prop :=
  kept U c = true /\ (blank c = true -> c = 32%N).

Record tidy (s : str) : Prop := {
  tidy_chars : Forall plain s;
  tidy_punct : no_adjacent is_punct s = true;
  tidy_space : no_adjacent blank s = true;
  tidy_left : head_is blank s = false;
  tidy_right : rstrip U s = s
}.

(** ** Characters *)

Lemma punct_not_blank c : is_punct c = true -> blank c = false.
Proof.
  intros H.
  destruct (is_punct_cases c H) as [-> | [-> | [-> | [-> | ->]]]];
    reflexivity.
Qed.

Lemma punct_kept c : is_punct c = true -> kept U c = true.
Proof.
  intros H.
  destruct (is_punct_cases c H) as [-> | [-> | [-> | [-> | ->]]]];
    reflexivity.
Qed.

Lemma space_blank : blank 32%N = true.
Proof. reflexivity. Qed.

Lemma space_plain : plain 32%N.
Proof. split; reflexivity. Qed.

Lemma colon_dropped : kept U 58%N = false.
Proof. reflexivity. Qed.

Lemma at_sign_dropped : kept U 64%N = false.
Proof. reflexivity. Qed.

(** ** First pass: the last three steps make the text tidy *)

Lemma filter_kept (s : str) :
  Forall (fun c => kept U c = true) (filter (kept U) s).
Proof. apply Forall_forall. intros c H. now apply filter_In in H. Qed.

Lemma sub_punct_runs_chars (q : codepoint -> Prop) (s : str) :
  q 32%N -> Forall q s -> forall b, Forall q (sub_punct_runs b s).
Proof.
  intros Hsp. induction 1 as [| c r Hc Hr IH]; intros b; [constructor |].
  cbn [sub_punct_runs]. destruct (is_punct c); [| now constructor].
  destruct b; [apply IH |].
  destruct r as [| d r']; [now repeat constructor |].
  destruct (is_punct d); constructor; auto.
Qed.

Lemma sub_punct_runs_skip (s : str) :
  head_is is_punct (sub_punct_runs true s) = false.
Proof.
  induction s as [| c r IH]; [reflexivity |].
  cbn [sub_punct_runs]. destruct (is_punct c) eqn:E; [exact IH |].
  cbn. exact E.
Qed.

Lemma sub_punct_runs_no_adjacent (s : str) :
  forall b, no_adjacent is_punct (sub_punct_runs b s) = true.
Proof.
  induction s as [| c r IH]; intros b; [reflexivity |].
  cbn [sub_punct_runs]. destruct (is_punct c) eqn:Ec.
  - destruct b; [apply IH |].
    destruct r as [| d r']; [now apply no_adjacent_cons |].
    destruct (is_punct d) eqn:Ed.
    + apply no_adjacent_cons; [discriminate | apply IH].
    + apply no_adjacent_cons; [| apply IH].
      intros _. cbn [sub_punct_runs]. rewrite Ed. cbn. exact Ed.
  - apply no_adjacent_cons; [congruence | apply IH].
Qed.

Lemma sub_space_runs_chars (s : str) :
  Forall (fun c => kept U c = true) s ->
  forall b, Forall plain (sub_space_runs U b s).
Proof.
  induction 1 as [| c r Hc Hr IH]; intros b; [constructor |].
  cbn [sub_space_runs]. destruct (blank c) eqn:E.
  - destruct b; [apply IH | constructor; [apply space_plain | apply IH]].
  - constructor; [| apply IH]. split; [assumption | congruence].
Qed.

Lemma sub_space_runs_skip (s : str) :
  head_is blank (sub_space_runs U true s) = false.
Proof.
  induction s as [| c r IH]; [reflexivity |].
  cbn [sub_space_runs]. destruct (blank c) eqn:E; [exact IH |].
  cbn. exact E.
Qed.

Lemma sub_space_runs_no_adjacent (s : str) :
  forall b, no_adjacent blank (sub_space_runs U b s) = true.
Proof.
  induction s as [| c r IH]; intros b; [reflexivity |].
  cbn [sub_space_runs]. destruct (blank c) eqn:E.
  - destruct b; [apply IH |].
    apply no_adjacent_cons; [| apply IH].
    intros _. apply sub_space_runs_skip.
  - apply no_adjacent_cons; [congruence | apply IH].
Qed.

Lemma sub_space_runs_head_punct (s : str) :
  head_is is_punct (sub_space_runs U false s) = true ->
  head_is is_punct s = true.
Proof.
  destruct s as [| c r]; [discriminate |].
  cbn [sub_space_runs]. destruct (blank c); [discriminate | trivial].
Qed.

Lemma sub_space_runs_keeps_punct (s : str) :
  no_adjacent is_punct s = true ->
  forall b, no_adjacent is_punct (sub_space_runs U b s) = true.
Proof.
  induction s as [| c r IH]; intros H b; [reflexivity |].
  pose proof (no_adjacent_tail _ _ _ H) as Hr.
  cbn [sub_space_runs]. destruct (blank c) eqn:E.
  - destruct b; [now apply IH |].
    apply no_adjacent_cons; [discriminate | now apply IH].
  - apply no_adjacent_cons; [| now apply IH].
    intros Hc. pose proof (no_adjacent_head _ _ _ H Hc) as Hh.
    destruct (head_is is_punct (sub_space_runs U false r)) eqn:E';
      [| reflexivity].
    apply sub_space_runs_head_punct in E'. congruence.
Qed.

(** ** Stripping *)

Lemma lstrip_chars (q : codepoint -> Prop) (s : str) :
  Forall q s -> Forall q (lstrip U s).
Proof.
  induction 1 as [| c r Hc Hr IH]; [constructor |].
  cbn [lstrip]. destruct (blank c); [exact IH | now constructor].
Qed.

Lemma lstrip_no_adjacent (p : codepoint -> bool) (s : str) :
  no_adjacent p s = true -> no_adjacent p (lstrip U s) = true.
Proof.
  induction s as [| c r IH]; intros H; [reflexivity |].
  cbn [lstrip]. destruct (blank c); [| exact H].
  apply IH. eapply no_adjacent_tail; eauto.
Qed.

Lemma lstrip_head (s : str) : head_is blank (lstrip U s) = false.
Proof.
  induction s as [| c r IH]; [reflexivity |].
  cbn [lstrip]. destruct (blank c) eqn:E; [exact IH | exact E].
Qed.

Lemma lstrip_fixed (s : str) : head_is blank s = false -> lstrip U s = s.
Proof.
  destruct s as [| c r]; [reflexivity |]. cbn. now intros ->.
Qed.

(** [rstrip] keeps the first character of whatever it leaves. *)
Lemma rstrip_head (s : str) :
  rstrip U s = []
  \/ exists r' r, rstrip U s = hd 0%N s :: r' /\ s = hd 0%N s :: r.
Proof.
  destruct s as [| c r]; [now left |].
  cbn [rstrip hd]. destruct (rstrip U r) as [| d r'].
  - destruct (blank c); [now left | right; eauto].
  - right; eauto.
Qed.

Lemma rstrip_head_is (p : codepoint -> bool) (s : str) :
  head_is p (rstrip U s) = true -> head_is p s = true.
Proof.
  destruct (rstrip_head s) as [-> | (r' & r & -> & E)]; [discriminate |].
  rewrite E at 2. trivial.
Qed.

Lemma rstrip_chars (q : codepoint -> Prop) (s : str) :
  Forall q s -> Forall q (rstrip U s).
Proof.
  induction 1 as [| c r Hc Hr IH]; [constructor |].
  cbn [rstrip]. destruct (rstrip U r) as [| d r'].
  - destruct (blank c); now repeat constructor.
  - now constructor.
Qed.

Lemma rstrip_no_adjacent (p : codepoint -> bool) (s : str) :
  no_adjacent p s = true -> no_adjacent p (rstrip U s) = true.
Proof.
  induction s as [| c r IH]; intros H; [reflexivity |].
  pose proof (no_adjacent_tail _ _ _ H) as Hr. specialize (IH Hr).
  cbn [rstrip]. destruct (rstrip U r) as [| d r'] eqn:E.
  - destruct (blank c); [reflexivity | now apply no_adjacent_cons].
  - apply no_adjacent_cons; [| exact IH].
    intros Hc. pose proof (no_adjacent_head _ _ _ H Hc) as Hh.
    destruct (head_is p (d :: r')) eqn:E'; [| reflexivity].
    rewrite <- E in E'. apply rstrip_head_is in E'. congruence.
Qed.

Lemma rstrip_cons (c : codepoint) (r : str) :
  rstrip U (c :: r)
  = match rstrip U r with
    | [] => if blank c then [] else [c]
    | r' => c :: r'
    end.
Proof. reflexivity. Qed.

Lemma rstrip_idempotent (s : str) : rstrip U (rstrip U s) = rstrip U s.
Proof.
  induction s as [| c r IH]; [reflexivity |].
  rewrite rstrip_cons. destruct (rstrip U r) as [| d r'] eqn:E.
  - destruct (blank c) eqn:Ec; [reflexivity |]. cbn. now rewrite Ec.
  - rewrite rstrip_cons, IH. reflexivity.
Qed.

Lemma rstrip_keeps_left (s : str) :
  head_is blank s = false -> head_is blank (rstrip U s) = false.
Proof.
  intros H. destruct (head_is blank (rstrip U s)) eqn:E; [| reflexivity].
  apply rstrip_head_is in E. congruence.
Qed.

Lemma rstrip_tail (c : codepoint) (r : str) :
  rstrip U (c :: r) = c :: r ->
  rstrip U r = r /\ (blank c = true -> r <> []).
Proof.
  cbn [rstrip]. destruct (rstrip U r) as [| d r'] eqn:E.
  - destruct (blank c); [discriminate |].
    intros H. injection H as <-. split; [reflexivity | discriminate].
  - intros H. injection H as <-. split; [reflexivity | discriminate].
Qed.

(** ** The cleaned text is tidy *)

Lemma tail_steps_tidy (s : str) :
  tidy (strip U (_remove_extra_spaces U (_remove_special_chars U s))).
Proof.
  unfold strip, _remove_extra_spaces, _remove_special_chars.
  set (a := sub_punct_runs false (filter (kept U) s)).
  assert (Ha : Forall (fun c => kept U c = true) a)
    by (apply sub_punct_runs_chars; [reflexivity | apply filter_kept]).
  assert (Hp : no_adjacent is_punct a = true)
    by apply sub_punct_runs_no_adjacent.
  constructor.
  - apply rstrip_chars, lstrip_chars. now apply sub_space_runs_chars.
  - apply rstrip_no_adjacent, lstrip_no_adjacent.
    now apply sub_space_runs_keeps_punct.
  - apply rstrip_no_adjacent, lstrip_no_adjacent.
    apply sub_space_runs_no_adjacent.
  - apply rstrip_keeps_left, lstrip_head.
  - apply rstrip_idempotent.
Qed.

Lemma clean_text_tidy (t : str) : tidy (clean_text U (Some t)).
Proof. apply tail_steps_tidy. Qed.

(** ** Second pass: every step leaves a tidy text alone, provided no
    contraction and no [www.] address has come to light *)

(** A match of [www\.\S+] begins somewhere in [s]. *)
Fixpoint has_www_url (s : str) : bool :=
  www_at U s || match s with [] => false | _ :: r => has_www_url r end.

(** A word of [s] is a key of [CONTRACTIONS]. *)
Definition has_contraction (s : str) : bool :=
  existsb is_contraction (split U s).

Lemma delete_matches_none (starts : str -> bool) (s : str) :
  never starts s -> delete_matches U starts false s = s.
Proof.
  induction s as [| c r IH]; intros [H Hr]; [reflexivity |].
  cbn [delete_matches andb]. rewrite H. f_equal. auto.
Qed.

Lemma plain_kept (s : str) :
  Forall plain s -> Forall (fun c => kept U c = true) s.
Proof. apply Forall_impl. now intros c [H _]. Qed.

Lemma no_scheme (p s : str) :
  In 58%N p -> Forall plain s -> prefix p s = false.
Proof.
  intros Hp Hs. destruct (prefix p s) eqn:E; [| reflexivity].
  pose proof (prefix_incl _ _ E _ Hp) as Hin.
  rewrite Forall_forall in Hs. destruct (Hs _ Hin) as [Hk _].
  rewrite colon_dropped in Hk. discriminate.
Qed.

Lemma never_url (s : str) :
  Forall plain s -> has_www_url s = false -> never (url_at U) s.
Proof.
  induction 1 as [| c r Hc Hr IH]; intros Hw.
  - split; [reflexivity | exact I].
  - cbn [has_www_url] in Hw. apply orb_false_elim in Hw as [Hw Hw'].
    split; [| auto]. unfold url_at.
    rewrite !no_scheme, Hw; try reflexivity; try (now constructor);
      cbn; tauto.
Qed.

Lemma at_sign_ahead_in (s : str) : at_sign_ahead U s = true -> In 64%N s.
Proof.
  induction s as [| c r IH]; [discriminate |]. cbn [at_sign_ahead].
  intros H. apply andb_prop in H as [_ H].
  apply orb_prop in H as [H | H].
  - apply andb_prop in H as [H _]. apply N.eqb_eq in H. now left.
  - right. auto.
Qed.

Lemma never_email (s : str) : Forall plain s -> never (email_at U) s.
Proof.
  induction 1 as [| c r Hc Hr IH]; [split; [reflexivity | exact I] |].
  split; [| exact IH].
  destruct (email_at U (c :: r)) eqn:E; [| reflexivity]. cbn in E.
  apply andb_prop in E as [_ E]. apply at_sign_ahead_in in E.
  rewrite Forall_forall in Hr. destruct (Hr _ E) as [Hk _].
  rewrite at_sign_dropped in Hk. discriminate.
Qed.

Lemma split_from_nonempty (s : str) :
  forall word, word <> [] -> split_from U word s <> [].
Proof.
  induction s as [| c r IH]; intros word H; cbn [split_from].
  - destruct word; congruence.
  - destruct (blank c).
    + destruct word; [congruence | discriminate].
    + apply IH. destruct word; discriminate.
Qed.

Lemma join_cons (word : str) (l : list str) :
  l <> [] -> join (word :: l) = word ++ 32%N :: join l.
Proof. destruct l; [congruence | reflexivity]. Qed.

Lemma join_split_from (s : str) :
  forall word,
    Forall plain s -> no_adjacent blank s = true -> rstrip U s = s ->
    (word = [] -> head_is blank s = false) ->
    join (split_from U word s) = word ++ s.
Proof.
  induction s as [| c r IH]; intros word Hs Hadj Hright Hleft.
  - cbn. destruct word; [reflexivity | now rewrite app_nil_r].
  - inversion Hs as [| ? ? [_ Hc] Hr]; subst.
    pose proof (no_adjacent_tail _ _ _ Hadj) as Hadj'.
    destruct (rstrip_tail _ _ Hright) as [Hright' Hne].
    cbn [split_from]. destruct (blank c) eqn:E.
    + rewrite (Hc eq_refl) in *.
      pose proof (no_adjacent_head _ _ _ Hadj E) as Hh.
      destruct word as [| w word];
        [specialize (Hleft eq_refl); cbn [head_is] in Hleft; congruence |].
      destruct r as [| d r]; [now destruct Hne |].
      rewrite join_cons.
      * rewrite (IH [] Hr Hadj' Hright' (fun _ => Hh)). reflexivity.
      * cbn [head_is] in Hh. cbn [split_from]. rewrite Hh.
        apply split_from_nonempty. discriminate.
    + rewrite IH; auto.
      * now rewrite <- app_assoc.
      * intros Hnil. now destruct word.
Qed.

Lemma dict_get_miss (d : list (str * str)) (w : str) :
  existsb (fun kv => str_eqb (fst kv) w) d = false -> dict_get d w w = w.
Proof.
  induction d as [| [k v] d IH]; [reflexivity |]. cbn [existsb fst dict_get].
  intros H. apply orb_false_elim in H as [-> H]. auto.
Qed.

Lemma expand_fixed (s : str) :
  tidy s -> has_contraction s = false -> _expand_contractions U s = s.
Proof.
  intros [Hs _ Hadj Hleft Hright] Hc. unfold _expand_contractions.
  replace (map _ (split U s)) with (split U s).
  - apply (join_split_from s []); auto.
  - rewrite <- (map_id (split U s)) at 1. apply map_ext_in.
    intros w Hw. symmetry. apply dict_get_miss.
    destruct (existsb _ CONTRACTIONS) eqn:E; [| reflexivity].
    unfold has_contraction in Hc.
    assert (existsb is_contraction (split U s) = true); [| congruence].
    apply existsb_exists. exists w. now split.
Qed.

Lemma filter_fixed (s : str) : Forall plain s -> filter (kept U) s = s.
Proof.
  induction 1 as [| c r [Hc _] Hr IH]; [reflexivity |].
  cbn. now rewrite Hc, IH.
Qed.

Lemma sub_punct_runs_fixed (s : str) :
  no_adjacent is_punct s = true -> sub_punct_runs false s = s.
Proof.
  induction s as [| c r IH]; intros H; [reflexivity |].
  pose proof (no_adjacent_tail _ _ _ H) as Hr.
  cbn [sub_punct_runs]. destruct (is_punct c) eqn:E.
  - pose proof (no_adjacent_head _ _ _ H E) as Hh.
    destruct r as [| d r]; [reflexivity |]. cbn [head_is] in Hh. rewrite Hh.
    now rewrite IH.
  - now rewrite IH.
Qed.

Lemma sub_space_runs_fixed (s : str) :
  forall b,
    Forall plain s -> no_adjacent blank s = true ->
    (b = true -> head_is blank s = false) ->
    sub_space_runs U b s = s.
Proof.
  induction s as [| c r IH]; intros b Hs Hadj Hb; [reflexivity |].
  inversion Hs as [| ? ? [_ Hc] Hr]; subst.
  pose proof (no_adjacent_tail _ _ _ Hadj) as Hadj'.
  cbn [sub_space_runs]. destruct (blank c) eqn:E.
  - destruct b; [specialize (Hb eq_refl); cbn [head_is] in Hb; congruence |].
    rewrite (Hc eq_refl) in *. f_equal. apply IH; auto.
    intros _. eapply no_adjacent_head; eauto.
  - f_equal. apply IH; auto. discriminate.
Qed.

Lemma tidy_fixed (c : str) :
  tidy c ->
  str_lower U c = c -> normalize_nfkc U c = c ->
  has_contraction c = false -> has_www_url c = false ->
  clean_text U (Some c) = c.
Proof.
  intros Ht Hlow Hnf Hcon Hwww.
  pose proof Ht as [Hs Hp Hadj Hleft Hright].
  unfold clean_text. rewrite Hlow.
  unfold _remove_urls. rewrite (delete_matches_none _ _ (never_url _ Hs Hwww)).
  unfold _remove_emails. rewrite (delete_matches_none _ _ (never_email _ Hs)).
  rewrite (expand_fixed _ Ht Hcon).
  unfold _normalize_unicode. rewrite Hnf.
  unfold _remove_special_chars.
  rewrite (filter_fixed _ Hs), (sub_punct_runs_fixed _ Hp).
  unfold _remove_extra_spaces.
  rewrite (sub_space_runs_fixed _ false Hs Hadj) by discriminate.
  unfold strip. rewrite (lstrip_fixed _ Hleft). exact Hright.
Qed.

End Facts.
End CleanerFacts.

(* ===================================================================== *)
(** * The properties of the specification                                 *)
(* ===================================================================== *)

Import TextCleaner ChurnDetector OpportunityFinder CategoryExtractor.

(** ** Text cleaning *)

Example clean_text_exposes_contraction :
  clean_text Latin.db (Some (u "(pq)")) = u "pq"
  /\ clean_text Latin.db (Some (u "pq")) = u "porque".
Proof. split; vm_compute; reflexivity. Qed.

Example clean_text_exposes_address :
  clean_text Latin.db (Some (u "w#ww.loja.com")) = u "www.loja.com"
  /\ clean_text Latin.db (Some (u "www.loja.com")) = [].
Proof. split; vm_compute; reflexivity. Qed.

(** C1, as stated: cleaning twice equals cleaning once.  It fails on
    the text "(pq)": the brackets hide the abbreviation from the
    contraction step and are removed after it, so the first pass
    returns "pq", which the second pass expands to "porque". *)
Lemma clean_text_not_idempotent :
  clean_text Latin.db (Some (clean_text Latin.db (Some (u "(pq)"))))
  <> clean_text Latin.db (Some (u "(pq)")).
Proof. vm_compute. discriminate. Qed.

(** C1, amended: a cleaned text [c = clean_text(t)] is a fixed point of
    the pipeline as soon as lowercasing and NFKC normalisation leave
    [c] unchanged, no word of [c] is a key of [CONTRACTIONS] and no
    [www.] followed by a non-whitespace character occurs in [c]. *)
Theorem clean_text_idempotent_when_settled (U : unicode) (t : str) :
  str_lower U (clean_text U (Some t)) = clean_text U (Some t) ->
  normalize_nfkc U (clean_text U (Some t)) = clean_text U (Some t) ->
  CleanerFacts.has_contraction U (clean_text U (Some t)) = false ->
  CleanerFacts.has_www_url U (clean_text U (Some t)) = false ->
  clean_text U (Some (clean_text U (Some t))) = clean_text U (Some t).
Proof.
  intros Hlow Hnf Hcon Hwww.
  apply CleanerFacts.tidy_fixed; auto using CleanerFacts.clean_text_tidy.
Qed.

Definition sample_review : str :=
  u "  Ótimo PRODUTO!!! vc   vai gostar... veja http://x.com/a?b=1 e fale com a@b.com, pra saber - ok? ".

Lemma clean_text_idempotent_when_settled_witness :
  clean_text Latin.db (Some sample_review)
  = u "ótimo produto você vai gostar veja e fale com para saber - ok?"
  /\ clean_text Latin.db (Some (clean_text Latin.db (Some sample_review)))
     = clean_text Latin.db (Some sample_review).
Proof.
  split; [vm_compute; reflexivity |].
  apply (clean_text_idempotent_when_settled Latin.db sample_review);
    vm_compute; reflexivity.
Defined.

(** ** Scores *)

(** C2: for every text, rating and sentiment the churn score and the
    opportunity score lie in [0, 100]. *)
Theorem scores_bounded (U : unicode) (text : pyobj) (rating : Z)
        (sentiment : string) :
  (0 <= churn_score (detect_churn_risk U text rating sentiment) <= 100)%Q
  /\ (0 <= opportunity_score (find_opportunities U text rating sentiment)
      <= 100)%Q.
Proof.
  split.
  - apply ChurnFacts.churn_score_range.
  - apply OpportunityFacts.opportunity_score_range.
Qed.

(** ** Category tie-break *)

(** C3: when some category has a match, [extract_category] returns the
    first category, in declaration order, among those with the largest
    number of matches (so a tie goes to the category declared first);
    in particular one Smartphones keyword and one Notebooks keyword and
    nothing else give [('Smartphones', 1/3)]. *)
Theorem extract_category_tie_break (U : unicode) (s : str) :
  s <> [] ->
  ((exists c k, In (c, k) CATEGORY_KEYWORDS
                /\ 0 < count_in k (str_lower U s)) ->
   exists cat n,
     CategoryFacts.first_maximal (str_lower U s) CATEGORY_KEYWORDS cat n
     /\ extract_category U (PyStr s) = (cat, py_min (of_nat n / 3)%Q 1.0%Q))
  /\ (count_in (getitem CATEGORY_KEYWORDS "Smartphones") (str_lower U s) = 1 ->
      count_in (getitem CATEGORY_KEYWORDS "Notebooks e Computadores")
               (str_lower U s) = 1 ->
      (forall c k, In (c, k) CATEGORY_KEYWORDS ->
                   c <> "Smartphones"%string ->
                   c <> "Notebooks e Computadores"%string ->
                   count_in k (str_lower U s) = 0) ->
      extract_category U (PyStr s) = ("Smartphones"%string, (1 # 3)%Q)).
Proof.
  intros Hs. rewrite (CategoryFacts.extract_on_text U s Hs). split.
  - intros (c & k & Hin & Hpos).
    pose proof (CategoryFacts.fill_scores_first_maximal (str_lower U s)
                  CATEGORY_KEYWORDS [] ltac:(intros ? ? [])) as H.
    destruct (fill_scores CATEGORY_KEYWORDS (str_lower U s))
      as [| first rest].
    + rewrite (H c k Hin) in Hpos. lia.
    + exists (fst (max_from first rest)), (snd (max_from first rest)).
      split; [exact H | reflexivity].
  - intros H1 H2 H0. rewrite CategoryFacts.fill_scores_as_filter.
    set (expected := fun c : string =>
           if String.eqb c "Smartphones" then 1
           else if String.eqb c "Notebooks e Computadores" then 1 else 0).
    rewrite (map_ext_in _ (fun entry => (fst entry, expected (fst entry)))).
    + vm_compute. reflexivity.
    + intros [c k] Hin. cbn [fst snd]. f_equal. unfold expected.
      destruct (CategoryFacts.table_entry c k Hin) as [Hget _].
      destruct (String.eqb_spec c "Smartphones") as [-> | Hc1];
        [now rewrite <- Hget |].
      destruct (String.eqb_spec c "Notebooks e Computadores") as [-> | Hc2];
        [now rewrite <- Hget | eauto].
Qed.

Lemma extract_category_tie_break_witness :
  (exists cat n,
      CategoryFacts.first_maximal
        (str_lower Latin.db (u "celular notebook")) CATEGORY_KEYWORDS cat n
      /\ extract_category Latin.db (PyStr (u "celular notebook"))
         = (cat, py_min (of_nat n / 3)%Q 1.0%Q))
  /\ extract_category Latin.db (PyStr (u "celular notebook"))
     = ("Smartphones"%string, (1 # 3)%Q).
Proof.
  destruct (extract_category_tie_break Latin.db (u "celular notebook")
              ltac:(discriminate)) as [Hgeneral Hpair].
  split.
  - apply Hgeneral.
    exists "Smartphones"%string, (getitem CATEGORY_KEYWORDS "Smartphones").
    split; [left; reflexivity | vm_compute; lia].
  - apply Hpair; [reflexivity | reflexivity |].
    intros c k Hin Hc1 Hc2. unfold CATEGORY_KEYWORDS in Hin. cbn [In] in Hin.
    repeat (destruct Hin as [Hin | Hin];
            [inversion Hin; subst; try congruence; vm_compute; reflexivity |]).
    destruct Hin.
Defined.

(** ** Churn scenario *)

Definition scenario_1 : str :=
  u "Produto horrível, nunca mais compro, quero processar essa empresa no procon".

Definition scenario_1_lower : str :=
  u "produto horrível, nunca mais compro, quero processar essa empresa no procon".

(** C4: on the text of scenario 1 with rating 1 and sentiment
    'negativo' three high-tier phrases match and nothing else, 3 x 30
    = 90 times 1.5 is 135, the returned score is 100 and the level is
    'alto_risco'. *)
Theorem scenario_1_high_risk (U : unicode) :
  str_lower U scenario_1 = scenario_1_lower ->
  ChurnDetector.signals_detected
    (detect_churn_risk U (PyStr scenario_1) 1 "negativo")
  = {| alta_gravidade := 3; media_gravidade := 0; baixa_gravidade := 0 |}
  /\ (of_nat (3 * 30 + 0 * 15 + 0 * 5) * 1.5 == 135)%Q
  /\ risk_level (detect_churn_risk U (PyStr scenario_1) 1 "negativo")
     = "alto_risco"%string
  /\ (churn_score (detect_churn_risk U (PyStr scenario_1) 1 "negativo")
      == 100)%Q.
Proof.
  intros H.
  rewrite (ChurnFacts.detect_on_text U (PyStr scenario_1) 1 "negativo"
             eq_refl eq_refl).
  cbv zeta. change (as_str (PyStr scenario_1)) with scenario_1. rewrite H.
  vm_compute. repeat split.
Qed.

Lemma scenario_1_high_risk_witness :
  risk_level (detect_churn_risk Latin.db (PyStr scenario_1) 1 "negativo")
  = "alto_risco"%string
  /\ (churn_score (detect_churn_risk Latin.db (PyStr scenario_1) 1 "negativo")
      == 100)%Q.
Proof.
  pose proof (scenario_1_high_risk Latin.db eq_refl) as (_ & _ & Hl & Hs).
  split; assumption.
Defined.

(** ** Null safety *)

(** C5: with [None] as text the three scorers return their default
    results, whatever the rating and the sentiment. *)
Theorem null_text_defaults (U : unicode) (rating : Z) (sentiment : string) :
  (churn_score (detect_churn_risk U PyNone rating sentiment) = 0.0%Q
   /\ risk_level (detect_churn_risk U PyNone rating sentiment)
      = "sem_risco"%string
   /\ problem_aspects (detect_churn_risk U PyNone rating sentiment) = []
   /\ main_reasons (detect_churn_risk U PyNone rating sentiment) = [])
  /\ (opportunity_score (find_opportunities U PyNone rating sentiment)
      = 0.0%Q
      /\ opportunity_level (find_opportunities U PyNone rating sentiment)
         = "sem_oportunidade"%string
      /\ customer_profile (find_opportunities U PyNone rating sentiment)
         = "cliente_comum"%string)
  /\ extract_category U PyNone = ("Outros"%string, 0.0%Q).
Proof. repeat split. Qed.

(** ** Opportunity level *)

(** C6: the opportunity level of every result is the level of the first
    rule, in the documented order, that the returned score, the rating
    and the sentiment satisfy.  (The level is decided on the score
    before [round(_, 2)]; rounding does not move it.) *)
Theorem opportunity_level_first_rule (U : unicode) (text : pyobj)
        (rating : Z) (sentiment : string) :
  opportunity_level (find_opportunities U text rating sentiment)
  = OpportunityFacts.documented_level
      (opportunity_score (find_opportunities U text rating sentiment))
      rating sentiment.
Proof.
  destruct (truthy text && isinstance_str text) eqn:E.
  - apply andb_prop in E as [Ht Hs].
    rewrite (OpportunityFacts.find_on_text U _ _ _ Ht Hs). cbv zeta.
    cbn [opportunity_score opportunity_level].
    rewrite OpportunityFacts.classify_is_documented.
    apply OpportunityFacts.documented_level_compat. symmetry.
    rewrite (round2_of_tenths _ _
               (OpportunityFacts.opportunity_unrounded _ rating)).
    symmetry. apply OpportunityFacts.opportunity_unrounded.
  - rewrite (OpportunityFacts.find_on_other U _ _ _ E).
    cbn [opportunity_score opportunity_level _no_opportunity_result].
    unfold OpportunityFacts.documented_level,
      OpportunityFacts.documented_rules, OpportunityFacts.first_match.
    destruct (String.eqb sentiment "negativo" || (rating <? 4)%Z);
      [reflexivity |].
    destruct (rating =? 5)%Z; reflexivity.
Qed.

(** ** Monotonicity *)

Lemma churn_tenths_monotone (sg sg' : ChurnDetector.signals) (rating : Z) :
  alta_gravidade sg < alta_gravidade sg' ->
  media_gravidade sg <= media_gravidade sg' ->
  baixa_gravidade sg <= baixa_gravidade sg' ->
  (ChurnFacts.tenths sg rating <= ChurnFacts.tenths sg' rating)%Z
  /\ (ChurnFacts.tenths sg' rating = ChurnFacts.tenths sg rating ->
      ChurnFacts.tenths sg' rating = 1000)%Z.
Proof.
  unfold ChurnFacts.tenths, ChurnFacts.factor. intros Ha Hm Hb.
  destruct (rating <=? 2)%Z; [| destruct (rating =? 3)%Z]; lia.
Qed.

(** C7: if [t'] matches at least as many phrases as [t] in every tier,
    and more in the high tier, its churn score is at least that of [t]
    for the same rating and sentiment, and the two scores are equal
    only at the cap of 100. *)
Theorem churn_score_monotone (U : unicode) (t t' : pyobj) (rating : Z)
        (sentiment : string) :
  alta_gravidade
    (ChurnDetector.signals_detected (detect_churn_risk U t rating sentiment))
  < alta_gravidade
      (ChurnDetector.signals_detected
         (detect_churn_risk U t' rating sentiment)) ->
  media_gravidade
    (ChurnDetector.signals_detected (detect_churn_risk U t rating sentiment))
  <= media_gravidade
       (ChurnDetector.signals_detected
          (detect_churn_risk U t' rating sentiment)) ->
  baixa_gravidade
    (ChurnDetector.signals_detected (detect_churn_risk U t rating sentiment))
  <= baixa_gravidade
       (ChurnDetector.signals_detected
          (detect_churn_risk U t' rating sentiment)) ->
  (churn_score (detect_churn_risk U t rating sentiment)
   <= churn_score (detect_churn_risk U t' rating sentiment))%Q
  /\ ((churn_score (detect_churn_risk U t' rating sentiment)
       == churn_score (detect_churn_risk U t rating sentiment))%Q ->
      (churn_score (detect_churn_risk U t' rating sentiment) == 100)%Q).
Proof.
  intros Ha Hm Hb.
  destruct (churn_tenths_monotone _ _ rating Ha Hm Hb) as [Hle Heq].
  pose proof (ChurnFacts.churn_score_tenths U t rating sentiment) as E.
  pose proof (ChurnFacts.churn_score_tenths U t' rating sentiment) as E'.
  cbv zeta in E, E'. rewrite E, E'. split.
  - q2z.
  - intros H.
    assert (ChurnFacts.tenths
              (ChurnDetector.signals_detected
                 (detect_churn_risk U t' rating sentiment)) rating
            = 1000%Z) as -> by (apply Heq; q2z).
    reflexivity.
Qed.

Lemma churn_score_monotone_witness :
  (churn_score
     (detect_churn_risk Latin.db (PyStr (u "Produto horrível")) 3 "negativo")
   <= churn_score
        (detect_churn_risk Latin.db (PyStr (u "Produto horrível, um golpe"))
           3 "negativo"))%Q.
Proof.
  apply (churn_score_monotone Latin.db (PyStr (u "Produto horrível"))
           (PyStr (u "Produto horrível, um golpe")) 3 "negativo");
    vm_compute; lia.
Defined.

(** ** Invariants of the results *)

(** C8: the category is 'Outros' exactly when the confidence is 0, and
    the confidence of any other category is 1/3, 2/3 or 1. *)
Theorem category_confidence_invariant (U : unicode) (text : pyobj) :
  (fst (extract_category U text) = "Outros"%string
   <-> (snd (extract_category U text) == 0)%Q)
  /\ (fst (extract_category U text) <> "Outros"%string ->
      (snd (extract_category U text) == 1 # 3)%Q
      \/ (snd (extract_category U text) == 2 # 3)%Q
      \/ (snd (extract_category U text) == 1)%Q).
Proof.
  destruct (CategoryFacts.extract_category_cases U text)
    as [E | (s & cat & n & _ & _ & Hfm & E)]; rewrite E; cbn [fst snd].
  - split; [split; reflexivity | congruence].
  - destruct Hfm as (before & kws & after & HT & _ & Hpos & _).
    assert (Hin : In (cat, kws) CATEGORY_KEYWORDS)
      by (rewrite HT; apply in_or_app; right; now left).
    destruct (CategoryFacts.table_entry _ _ Hin) as [_ Hcat].
    destruct (CategoryFacts.confidence_values n Hpos) as [Hnz Hval].
    split; [split; intros; contradiction | intros _; exact Hval].
Qed.

(** C9: [is_critical] says whether the risk level is 'alto_risco', on
    every path. *)
Theorem is_critical_invariant (U : unicode) (text : pyobj) (rating : Z)
        (sentiment : string) :
  is_critical (detect_churn_risk U text rating sentiment)
  = String.eqb (risk_level (detect_churn_risk U text rating sentiment))
               "alto_risco".
Proof.
  destruct (truthy text && isinstance_str text) eqn:E.
  - apply andb_prop in E as [Ht Hs].
    rewrite (ChurnFacts.detect_on_text U _ _ _ Ht Hs). reflexivity.
  - rewrite (ChurnFacts.detect_on_other U _ _ _ E). reflexivity.
Qed.

(** ** Repeated reasons *)

Definition nao_recomendo : str := u "não recomendo".

(** C10: 'não recomendo' is listed in the high and in the medium tier,
    and for the text 'não recomendo' the list [main_reasons] holds the
    phrase twice, whatever the rating and the sentiment: the reasons
    are not always distinct. *)
Theorem main_reasons_repeat (U : unicode) (rating : Z) (sentiment : string) :
  str_lower U nao_recomendo = nao_recomendo ->
  In nao_recomendo (getitem CHURN_SIGNALS "alta")
  /\ In nao_recomendo (getitem CHURN_SIGNALS "media")
  /\ main_reasons (detect_churn_risk U (PyStr nao_recomendo) rating sentiment)
     = [nao_recomendo; nao_recomendo]
  /\ ~ NoDup (main_reasons
                (detect_churn_risk U (PyStr nao_recomendo) rating sentiment)).
Proof.
  intros H.
  assert (E : main_reasons
                (detect_churn_risk U (PyStr nao_recomendo) rating sentiment)
              = [nao_recomendo; nao_recomendo]).
  { rewrite (ChurnFacts.detect_on_text U (PyStr nao_recomendo) rating
               sentiment eq_refl eq_refl).
    cbv zeta. cbn [main_reasons].
    change (as_str (PyStr nao_recomendo)) with nao_recomendo. rewrite H.
    vm_compute. reflexivity. }
  rewrite E. repeat split.
  - vm_compute. tauto.
  - vm_compute. tauto.
  - intros Hnd. inversion Hnd as [| ? ? Hnotin _]. apply Hnotin. now left.
Qed.

Lemma main_reasons_repeat_witness :
  main_reasons
    (detect_churn_risk Latin.db (PyStr nao_recomendo) 3 "negativo")
  = [nao_recomendo; nao_recomendo].
Proof.
  pose proof (main_reasons_repeat Latin.db 3 "negativo" eq_refl)
    as (_ & _ & H & _).
  exact H.
Defined.

(* ===================================================================== *)
(** * Further properties of the churn detector                            *)
(* ===================================================================== *)

Module ChurnMore.

(** The signals of a tier that occur in the text, in list order. *)
Definition matches (tier : string) (text_lower : str) : list str :=
  filter (fun signal => contains signal text_lower)
         (getitem CHURN_SIGNALS tier).

Lemma firstn_short (A : Type) (n : nat) (l : list A) :
  List.length (firstn n l) < n -> firstn n l = l.
Proof.
  intros H. apply firstn_all2.
  rewrite length_firstn in H. lia.
Qed.

(** One loop of [_extract_main_reasons], started below the limit, is a
    truncated concatenation. *)
Lemma collect_firstn (sigs : list str) (text : str) :
  forall reasons,
    List.length reasons < 3 ->
    collect sigs text reasons
    = firstn 3 (reasons ++ filter (fun signal => contains signal text) sigs).
Proof.
  induction sigs as [| signal rest IH]; intros reasons Hlen.
  - cbn [collect filter]. rewrite app_nil_r. symmetry. apply firstn_all2. lia.
  - cbn [collect filter]. destruct (contains signal text).
    + destruct (3 <=? List.length (reasons ++ [signal])) eqn:E.
      * apply Nat.leb_le in E. rewrite length_app in E.
        cbn [List.length] in E.
        replace (reasons ++ signal :: filter _ rest)
          with ((reasons ++ [signal]) ++ filter
                  (fun signal => contains signal text) rest)
          by now rewrite <- app_assoc.
        rewrite firstn_app.
        replace (3 - List.length (reasons ++ [signal])) with 0
          by (rewrite length_app; cbn [List.length]; lia).
        rewrite firstn_O, app_nil_r. symmetry. apply firstn_all2.
        rewrite length_app. cbn [List.length]. lia.
      * apply Nat.leb_gt in E. rewrite IH by assumption.
        now rewrite <- app_assoc.
    + now apply IH.
Qed.

(** One guarded loop: the reasons so far are the first three of [found]
    and the loop runs over a tier whose count is the number of its
    matching signals. *)
Lemma guarded_collect (sigs : list str) (text : str) (found : list str) :
  (if (List.length (firstn 3 found) <? 3)
      && (0 <? List.length
                 (filter (fun signal => contains signal text) sigs))
   then collect sigs text (firstn 3 found)
   else firstn 3 found)
  = firstn 3 (found ++ filter (fun signal => contains signal text) sigs).
Proof.
  destruct (List.length (firstn 3 found) <? 3) eqn:E.
  - apply Nat.ltb_lt in E. rewrite (firstn_short _ _ _ E).
    rewrite length_firstn in E.
    destruct (filter _ sigs) as [| x l] eqn:F.
    + cbn -[firstn]. rewrite app_nil_r. symmetry. apply firstn_all2. lia.
    + cbn [andb List.length Nat.ltb Nat.leb]. rewrite <- F.
      apply collect_firstn. lia.
  - apply Nat.ltb_ge in E. cbn [andb].
    rewrite length_firstn in E. rewrite firstn_app.
    replace (3 - List.length found) with 0 by lia.
    now rewrite firstn_O, app_nil_r.
Qed.

Lemma extract_main_reasons_firstn (text : str) :
  _extract_main_reasons text
    (count_in (getitem CHURN_SIGNALS "alta") text)
    (count_in (getitem CHURN_SIGNALS "media") text)
    (count_in (getitem CHURN_SIGNALS "baixa") text)
  = firstn 3 (matches "alta" text ++ matches "media" text
              ++ matches "baixa" text).
Proof.
  unfold _extract_main_reasons, count_in, matches. cbv zeta.
  generalize (getitem CHURN_SIGNALS "alta") as A.
  generalize (getitem CHURN_SIGNALS "media") as M.
  generalize (getitem CHURN_SIGNALS "baixa") as B.
  intros B M A. set (f := fun signal => contains signal text).
  assert (E1 : (if 0 <? List.length (filter f A) then collect A text []
                else []) = firstn 3 (filter f A)).
  { pose proof (guarded_collect A text []) as H.
    rewrite firstn_nil in H.
    cbn [List.length Nat.ltb Nat.leb andb app] in H. exact H. }
  pose proof (guarded_collect M text (filter f A)) as E2.
  pose proof (guarded_collect B text (filter f A ++ filter f M)) as E3.
  fold f in E2, E3.
  rewrite E1, E2, E3, firstn_firstn, <- app_assoc. reflexivity.
Qed.

End ChurnMore.

(* ===================================================================== *)
(** * Substrings                                                          *)
(* ===================================================================== *)

Lemma prefix_split (p s : str) :
  prefix p s = true <-> exists post, s = p ++ post.
Proof.
  revert s. induction p as [| a p IH]; intros s.
  - split; [exists s; reflexivity | reflexivity].
  - destruct s as [| b s]; cbn [prefix].
    + split; [discriminate | intros [post H]; discriminate].
    + rewrite andb_true_iff, N.eqb_eq, IH. split.
      * intros [-> [post ->]]. now exists post.
      * intros [post H]. injection H as -> ->. eauto.
Qed.

Lemma contains_split (p s : str) :
  contains p s = true <-> exists pre post, s = pre ++ p ++ post.
Proof.
  induction s as [| c s IH]; cbn [contains]; rewrite orb_true_iff, prefix_split.
  - split.
    + intros [[post H] | H]; [exists [], post; exact H | discriminate].
    + intros (pre & post & H). left.
      destruct pre; [now exists post |].
      discriminate.
  - rewrite IH. split.
    + intros [[post H] | (pre & post & H)].
      * now exists [], post.
      * exists (c :: pre), post. now rewrite H.
    + intros (pre & post & H). destruct pre as [| d pre].
      * left. now exists post.
      * right. injection H as -> ->. eauto.
Qed.

(** A text that contains a phrase contains every part of the phrase. *)
Lemma contains_trans (p q t : str) :
  contains p q = true -> contains q t = true -> contains p t = true.
Proof.
  rewrite !contains_split.
  intros (a & b & ->) (pre & post & ->).
  exists (pre ++ a), (b ++ post). now rewrite <- !app_assoc.
Qed.

Lemma count_in_one (phrases : list str) (p t : str) :
  In p phrases -> contains p t = true -> 1 <= count_in phrases t.
Proof.
  intros Hin Hp. unfold count_in.
  assert (H : In p (filter (fun x => contains x t) phrases))
    by (apply filter_In; now split).
  destruct (filter _ phrases); [destruct H | cbn; lia].
Qed.

Lemma count_in_two (phrases : list str) (p q t : str) :
  In p phrases -> In q phrases -> p <> q ->
  contains p t = true -> contains q t = true ->
  2 <= count_in phrases t.
Proof.
  intros Hp Hq Hne Hcp Hcq. unfold count_in.
  assert (H1 : In p (filter (fun x => contains x t) phrases))
    by (apply filter_In; now split).
  assert (H2 : In q (filter (fun x => contains x t) phrases))
    by (apply filter_In; now split).
  destruct (filter _ phrases) as [| a [| b l]]; cbn [List.length];
    [destruct H1 | | lia].
  destruct H1 as [<- | []], H2 as [<- | []]. congruence.
Qed.

(* ===================================================================== *)
(** * Churn detector: reasons, levels and nested phrases                  *)
(* ===================================================================== *)

Lemma classify_risk_compat (x y : Q) (rating : Z) (sentiment : string) :
  (x == y)%Q ->
  _classify_risk x rating sentiment = _classify_risk y rating sentiment.
Proof.
  intros H. unfold _classify_risk.
  rewrite !(Qleb_comp _ _ (Qeq_refl _) x y H).
  rewrite (Qleb_comp x y H _ _ (Qeq_refl 0%Q)).
  reflexivity.
Qed.

Lemma classify_risk_labels (score : Q) (rating : Z) (sentiment : string) :
  In (_classify_risk score rating sentiment)
     ["alto_risco"; "medio_risco"; "baixo_risco"; "sem_risco"]%string.
Proof.
  unfold _classify_risk.
  repeat match goal with
         | |- context [if ?b then _ else _] => destruct b
         end; cbn; tauto.
Qed.

(** X1: [main_reasons] holds the first three matching phrases in the
    order high tier, medium tier, low tier, each tier in list order;
    it is empty for a text that is not a non-empty string. *)
Theorem main_reasons_by_severity (U : unicode) (text : pyobj) (rating : Z)
        (sentiment : string) :
  main_reasons (detect_churn_risk U text rating sentiment)
  = if truthy text && isinstance_str text
    then firstn 3 (ChurnMore.matches "alta" (str_lower U (as_str text))
                   ++ ChurnMore.matches "media" (str_lower U (as_str text))
                   ++ ChurnMore.matches "baixa" (str_lower U (as_str text)))
    else [].
Proof.
  destruct (truthy text && isinstance_str text) eqn:E.
  - apply andb_prop in E as [Ht Hs].
    rewrite (ChurnFacts.detect_on_text U _ _ _ Ht Hs). cbv zeta.
    cbn [main_reasons]. apply ChurnMore.extract_main_reasons_firstn.
  - now rewrite (ChurnFacts.detect_on_other U _ _ _ E).
Qed.

(** X2: the number of reasons is the number of detected signals, capped
    at three. *)
Theorem main_reasons_length (U : unicode) (text : pyobj) (rating : Z)
        (sentiment : string) :
  List.length (main_reasons (detect_churn_risk U text rating sentiment))
  = Nat.min 3
      (alta_gravidade
         (ChurnDetector.signals_detected
            (detect_churn_risk U text rating sentiment))
       + media_gravidade
           (ChurnDetector.signals_detected
              (detect_churn_risk U text rating sentiment))
       + baixa_gravidade
           (ChurnDetector.signals_detected
              (detect_churn_risk U text rating sentiment))).
Proof.
  rewrite main_reasons_by_severity.
  destruct (truthy text && isinstance_str text) eqn:E.
  - apply andb_prop in E as [Ht Hs].
    rewrite (ChurnFacts.detect_on_text U _ _ _ Ht Hs). cbv zeta.
    cbn [ChurnDetector.signals_detected alta_gravidade media_gravidade
         baixa_gravidade].
    rewrite length_firstn, !length_app. unfold ChurnMore.matches, count_in.
    lia.
  - now rewrite (ChurnFacts.detect_on_other U _ _ _ E).
Qed.

(** X3: the score is 0 exactly when no signal phrase was detected, and
    exactly then there is no reason to show. *)
Theorem churn_score_zero_iff (U : unicode) (text : pyobj) (rating : Z)
        (sentiment : string) :
  ((churn_score (detect_churn_risk U text rating sentiment) == 0)%Q
   <-> alta_gravidade
         (ChurnDetector.signals_detected
            (detect_churn_risk U text rating sentiment))
       + media_gravidade
           (ChurnDetector.signals_detected
              (detect_churn_risk U text rating sentiment))
       + baixa_gravidade
           (ChurnDetector.signals_detected
              (detect_churn_risk U text rating sentiment)) = 0)
  /\ ((churn_score (detect_churn_risk U text rating sentiment) == 0)%Q
      <-> main_reasons (detect_churn_risk U text rating sentiment) = []).
Proof.
  pose proof (ChurnFacts.churn_score_tenths U text rating sentiment) as E.
  pose proof (main_reasons_length U text rating sentiment) as L.
  cbv zeta in E. rewrite E. clear E.
  set (sg := ChurnDetector.signals_detected
               (detect_churn_risk U text rating sentiment)) in *.
  assert (Z0 : (ChurnFacts.tenths sg rating = 0)%Z
               <-> alta_gravidade sg + media_gravidade sg
                   + baixa_gravidade sg = 0).
  { unfold ChurnFacts.tenths, ChurnFacts.factor.
    destruct (rating <=? 2)%Z; [| destruct (rating =? 3)%Z]; lia. }
  assert (Q0 : (ChurnFacts.tenths sg rating # 10 == 0)%Q
               <-> (ChurnFacts.tenths sg rating = 0)%Z)
    by (unfold Qeq; cbn [Qnum Qden]; lia).
  split; [tauto |]. rewrite Q0, Z0.
  destruct (main_reasons (detect_churn_risk U text rating sentiment));
    cbn [List.length] in L; split; intros H; try reflexivity;
    try discriminate; lia.
Qed.

(** X4: on a non-empty string the risk level is what [_classify_risk]
    gives for the score that is returned: rounding the score does not
    change the level. *)
Theorem risk_level_of_returned_score (U : unicode) (text : pyobj)
        (rating : Z) (sentiment : string) :
  truthy text && isinstance_str text = true ->
  risk_level (detect_churn_risk U text rating sentiment)
  = _classify_risk (churn_score (detect_churn_risk U text rating sentiment))
                   rating sentiment.
Proof.
  intros E. apply andb_prop in E as [Ht Hs].
  rewrite (ChurnFacts.detect_on_text U _ _ _ Ht Hs). cbv zeta.
  cbn [churn_score risk_level].
  apply classify_risk_compat. symmetry.
  rewrite (round2_of_tenths _ _ (ChurnFacts.churn_unrounded _ rating)).
  symmetry. apply ChurnFacts.churn_unrounded.
Qed.

Lemma risk_level_of_returned_score_witness :
  risk_level
    (detect_churn_risk Latin.db (PyStr (u "Muito ruim, demorado")) 3 "negativo")
  = _classify_risk
      (churn_score
         (detect_churn_risk Latin.db (PyStr (u "Muito ruim, demorado")) 3
            "negativo")) 3 "negativo".
Proof.
  apply (risk_level_of_returned_score Latin.db
           (PyStr (u "Muito ruim, demorado")) 3 "negativo").
  reflexivity.
Defined.

(** X5: with a rating of 3 or less, the level is 'sem_risco' exactly
    when the text is not a non-empty string: any real text gets at
    least 'baixo_risco', a missing or empty one gets the default. *)
Theorem low_rating_no_risk_iff_no_text (U : unicode) (text : pyobj)
        (rating : Z) (sentiment : string) :
  (rating <= 3)%Z ->
  (risk_level (detect_churn_risk U text rating sentiment)
   = "sem_risco"%string
   <-> truthy text && isinstance_str text = false).
Proof.
  intros Hr. destruct (truthy text && isinstance_str text) eqn:E.
  - apply andb_prop in E as [Ht Hs].
    rewrite (ChurnFacts.detect_on_text U _ _ _ Ht Hs). cbv zeta.
    cbn [risk_level]. unfold _classify_risk.
    replace (4 <=? rating)%Z with false by (symmetry; apply Z.leb_gt; lia).
    replace (rating <=? 3)%Z with true by (symmetry; apply Z.leb_le; lia).
    rewrite andb_false_r, orb_true_r.
    split; [| discriminate].
    repeat match goal with
           | |- context [if ?b then _ else _] => destruct b
           end; discriminate.
  - rewrite (ChurnFacts.detect_on_other U _ _ _ E). now split.
Qed.

Lemma low_rating_no_risk_iff_no_text_witness :
  risk_level (detect_churn_risk Latin.db (PyStr []) 1 "negativo")
  = "sem_risco"%string
  /\ risk_level (detect_churn_risk Latin.db (PyStr (u "ok")) 1 "negativo")
     <> "sem_risco"%string.
Proof.
  split.
  - apply (low_rating_no_risk_iff_no_text Latin.db (PyStr []) 1 "negativo");
      [lia | reflexivity].
  - intros H.
    apply (low_rating_no_risk_iff_no_text Latin.db (PyStr (u "ok")) 1
             "negativo") in H; [discriminate | lia].
Defined.

(** X6: a positive review rated 4 or more is never at risk, whatever
    its text and its score. *)
Theorem positive_high_rating_no_risk (U : unicode) (text : pyobj)
        (rating : Z) (sentiment : string) :
  sentiment = "positivo"%string -> (4 <= rating)%Z ->
  risk_level (detect_churn_risk U text rating sentiment)
  = "sem_risco"%string
  /\ is_critical (detect_churn_risk U text rating sentiment) = false.
Proof.
  intros -> Hr. destruct (truthy text && isinstance_str text) eqn:E.
  - apply andb_prop in E as [Ht Hs].
    rewrite (ChurnFacts.detect_on_text U _ _ _ Ht Hs). cbv zeta.
    cbn [risk_level is_critical]. unfold _classify_risk.
    replace (4 <=? rating)%Z with true by (symmetry; apply Z.leb_le; lia).
    split; reflexivity.
  - rewrite (ChurnFacts.detect_on_other U _ _ _ E). split; reflexivity.
Qed.

Lemma positive_high_rating_no_risk_witness :
  risk_level
    (detect_churn_risk Latin.db (PyStr (u "golpe, fraude, lixo, procon")) 5
       "positivo")
  = "sem_risco"%string.
Proof.
  apply (positive_high_rating_no_risk Latin.db
           (PyStr (u "golpe, fraude, lixo, procon")) 5 "positivo");
    [reflexivity | lia].
Defined.

Lemma classify_alto_score (score : Q) (rating : Z) (sentiment : string) :
  String.eqb (_classify_risk score rating sentiment) "alto_risco" = true ->
  (20 <= score)%Q.
Proof.
  unfold _classify_risk.
  destruct (String.eqb sentiment "positivo" && (4 <=? rating)%Z);
    [discriminate |].
  destruct (Qle_bool 40 score) eqn:E40.
  - intros _. apply Qle_bool_iff in E40.
    apply Qle_trans with (y := 40%Q); [discriminate | exact E40].
  - destruct ((rating <=? 2)%Z && Qle_bool 20 score) eqn:E20.
    + intros _. apply andb_prop in E20 as [_ E20].
      now apply Qle_bool_iff in E20.
    + cbn [orb].
      repeat match goal with
             | |- context [if ?b then _ else _] => destruct b
             end; discriminate.
Qed.

(** X7: a critical result comes from a non-empty string and carries a
    score of at least 20. *)
Theorem critical_needs_score (U : unicode) (text : pyobj) (rating : Z)
        (sentiment : string) :
  is_critical (detect_churn_risk U text rating sentiment) = true ->
  truthy text && isinstance_str text = true
  /\ (20 <= churn_score (detect_churn_risk U text rating sentiment))%Q.
Proof.
  intros H. destruct (truthy text && isinstance_str text) eqn:E.
  - split; [reflexivity |]. apply andb_prop in E as [Ht Hs].
    rewrite (ChurnFacts.detect_on_text U _ _ _ Ht Hs) in *. cbv zeta in *.
    cbn [is_critical churn_score] in *.
    apply classify_alto_score in H.
    rewrite (round2_of_tenths _ _ (ChurnFacts.churn_unrounded _ rating)).
    now rewrite <- (ChurnFacts.churn_unrounded _ rating).
  - rewrite (ChurnFacts.detect_on_other U _ _ _ E) in H. discriminate.
Qed.

Lemma critical_needs_score_witness :
  (20 <= churn_score
           (detect_churn_risk Latin.db (PyStr (u "um golpe")) 2 "negativo"))%Q.
Proof.
  apply (critical_needs_score Latin.db (PyStr (u "um golpe")) 2 "negativo").
  reflexivity.
Defined.

(** X8: phrases nested in longer phrases are counted again.  A text
    with 'arrependimento total' (high tier) also matches
    'arrependimento' (medium tier), so its score is at least 45; a text
    with 'demorado' counts two low-tier signals, 'demora' and
    'demorado'. *)
Theorem nested_churn_phrases (U : unicode) (s : str) (rating : Z)
        (sentiment : string) :
  s <> [] ->
  (contains (u "arrependimento total") (str_lower U s) = true ->
   1 <= alta_gravidade
          (ChurnDetector.signals_detected
             (detect_churn_risk U (PyStr s) rating sentiment))
   /\ 1 <= media_gravidade
             (ChurnDetector.signals_detected
                (detect_churn_risk U (PyStr s) rating sentiment))
   /\ (45 <= churn_score (detect_churn_risk U (PyStr s) rating sentiment))%Q)
  /\ (contains (u "demorado") (str_lower U s) = true ->
      2 <= baixa_gravidade
             (ChurnDetector.signals_detected
                (detect_churn_risk U (PyStr s) rating sentiment))).
Proof.
  intros Hs.
  assert (Ht : truthy (PyStr s) = true) by (destruct s; [congruence | easy]).
  split.
  - intros Hc.
    pose proof (ChurnFacts.churn_score_tenths U (PyStr s) rating sentiment)
      as E. cbv zeta in E. rewrite E. clear E.
    unfold ChurnFacts.tenths.
    rewrite (ChurnFacts.detect_on_text U _ _ _ Ht eq_refl). cbv zeta.
    cbn [ChurnDetector.signals_detected alta_gravidade media_gravidade
         baixa_gravidade as_str].
    assert (Ha : 1 <= count_in (getitem CHURN_SIGNALS "alta") (str_lower U s)).
    { apply count_in_one with (p := u "arrependimento total");
        [vm_compute; tauto | exact Hc]. }
    assert (Hm : 1 <= count_in (getitem CHURN_SIGNALS "media") (str_lower U s)).
    { apply count_in_one with (p := u "arrependimento");
        [vm_compute; tauto |].
      apply contains_trans with (q := u "arrependimento total");
        [reflexivity | exact Hc]. }
    repeat split; try assumption.
    unfold ChurnFacts.factor, Qle. cbn [Qnum Qden].
    destruct (rating <=? 2)%Z; [| destruct (rating =? 3)%Z]; lia.
  - intros Hc.
    rewrite (ChurnFacts.detect_on_text U _ _ _ Ht eq_refl). cbv zeta.
    cbn [ChurnDetector.signals_detected baixa_gravidade as_str].
    apply count_in_two with (p := u "demora") (q := u "demorado");
      try (vm_compute; tauto); try exact Hc.
    + vm_compute. discriminate.
    + apply contains_trans with (q := u "demorado");
        [reflexivity | exact Hc].
Qed.

Lemma nested_churn_phrases_witness :
  (45 <= churn_score
           (detect_churn_risk Latin.db
              (PyStr (u "Arrependimento total, muito demorado")) 4
              "negativo"))%Q
  /\ 2 <= baixa_gravidade
            (ChurnDetector.signals_detected
               (detect_churn_risk Latin.db
                  (PyStr (u "Arrependimento total, muito demorado")) 4
                  "negativo")).
Proof.
  destruct (nested_churn_phrases Latin.db
              (u "Arrependimento total, muito demorado") 4 "negativo"
              ltac:(discriminate)) as [H1 H2].
  split; [apply H1 | apply H2]; reflexivity.
Defined.

(* ===================================================================== *)
(** * Opportunity finder: types, profiles and levels                      *)
(* ===================================================================== *)

Lemma opportunity_types_as_filter (up cs lo ad ex : nat) :
  _identify_opportunity_types up cs lo ad ex
  = map fst
      (filter (fun entry => 0 <? snd entry)
         [ ("upsell"%string, up); ("cross_sell"%string, cs);
           ("fidelidade"%string, lo); ("advogado_marca"%string, ad);
           ("satisfacao_excepcional"%string, ex) ]).
Proof.
  unfold _identify_opportunity_types. cbn [filter snd].
  destruct (0 <? up), (0 <? cs), (0 <? lo), (0 <? ad), (0 <? ex);
    reflexivity.
Qed.

Lemma opportunity_type_present (up cs lo ad ex : nat) (name : string)
      (n : nat) :
  In (name, n)
     [ ("upsell"%string, up); ("cross_sell"%string, cs);
       ("fidelidade"%string, lo); ("advogado_marca"%string, ad);
       ("satisfacao_excepcional"%string, ex) ] ->
  0 < n ->
  In name (_identify_opportunity_types up cs lo ad ex).
Proof.
  intros Hin Hn. rewrite opportunity_types_as_filter.
  apply in_map_iff. exists (name, n). split; [reflexivity |].
  apply filter_In. split; [exact Hin | now apply Nat.ltb_lt].
Qed.

Lemma opportunity_types_empty (up cs lo ad ex : nat) :
  _identify_opportunity_types up cs lo ad ex = []
  <-> up + cs + lo + ad + ex = 0.
Proof.
  unfold _identify_opportunity_types.
  destruct (0 <? up) eqn:E1, (0 <? cs) eqn:E2, (0 <? lo) eqn:E3,
           (0 <? ad) eqn:E4, (0 <? ex) eqn:E5;
    repeat match goal with
           | H : (_ <? _) = true |- _ => apply Nat.ltb_lt in H
           | H : (_ <? _) = false |- _ => apply Nat.ltb_ge in H
           end;
    cbn [app]; split; intros H; try discriminate; try reflexivity; lia.
Qed.

Lemma profile_cases (lo ad ex : nat) :
  (_profile_customer lo ad ex = "advogado_marca"%string /\ 0 < ad)
  \/ (_profile_customer lo ad ex = "cliente_fiel"%string /\ 0 < lo)
  \/ (_profile_customer lo ad ex = "altamente_satisfeito"%string /\ 0 < ex)
  \/ (_profile_customer lo ad ex = "cliente_satisfeito"%string
      /\ 0 < lo + ad + ex)
  \/ (_profile_customer lo ad ex = "cliente_comum"%string
      /\ lo + ad + ex = 0).
Proof.
  unfold _profile_customer.
  destruct (2 <=? ad) eqn:A2, (1 <=? ad) eqn:A1, (1 <=? lo) eqn:L1,
           (2 <=? lo) eqn:L2, (1 <=? ex) eqn:X1, (2 <=? ex) eqn:X2,
           (0 <? lo + ad + ex) eqn:T;
    repeat match goal with
           | H : (_ <=? _) = true |- _ => apply Nat.leb_le in H
           | H : (_ <=? _) = false |- _ => apply Nat.leb_gt in H
           | H : (_ <? _) = true |- _ => apply Nat.ltb_lt in H
           | H : (_ <? _) = false |- _ => apply Nat.ltb_ge in H
           end;
    try lia; cbn [orb andb];
    first [ left; split; [reflexivity | lia]
          | right; left; split; [reflexivity | lia]
          | right; right; left; split; [reflexivity | lia]
          | right; right; right; left; split; [reflexivity | lia]
          | right; right; right; right; split; [reflexivity | lia] ].
Qed.

(** X9: the customer profile agrees with the opportunity types: the
    profiles 'advogado_marca', 'cliente_fiel' and
    'altamente_satisfeito' come with the type of the same signal, and
    the profile is 'cliente_comum' exactly when the loyalty, advocate
    and satisfaction counts are all 0. *)
Theorem profile_agrees_with_types (U : unicode) (text : pyobj) (rating : Z)
        (sentiment : string) :
  (customer_profile (find_opportunities U text rating sentiment)
   = "advogado_marca"%string ->
   In "advogado_marca"%string
      (opportunity_types (find_opportunities U text rating sentiment)))
  /\ (customer_profile (find_opportunities U text rating sentiment)
      = "cliente_fiel"%string ->
      In "fidelidade"%string
         (opportunity_types (find_opportunities U text rating sentiment)))
  /\ (customer_profile (find_opportunities U text rating sentiment)
      = "altamente_satisfeito"%string ->
      In "satisfacao_excepcional"%string
         (opportunity_types (find_opportunities U text rating sentiment)))
  /\ (customer_profile (find_opportunities U text rating sentiment)
      = "cliente_comum"%string
      <-> loyalty
            (OpportunityFinder.signals_detected
               (find_opportunities U text rating sentiment))
          + brand_advocate
              (OpportunityFinder.signals_detected
                 (find_opportunities U text rating sentiment))
          + exceptional_satisfaction
              (OpportunityFinder.signals_detected
                 (find_opportunities U text rating sentiment)) = 0).
Proof.
  destruct (truthy text && isinstance_str text) eqn:E.
  - apply andb_prop in E as [Ht Hs].
    rewrite (OpportunityFacts.find_on_text U _ _ _ Ht Hs). cbv zeta.
    cbn [customer_profile opportunity_types OpportunityFinder.signals_detected
         loyalty brand_advocate exceptional_satisfaction].
    set (text_lower := str_lower U (as_str text)).
    generalize (count_in UPSELL_SIGNALS text_lower) as up.
    generalize (count_in CROSS_SELL_SIGNALS text_lower) as cs.
    generalize (count_in LOYALTY_SIGNALS text_lower) as lo.
    generalize (count_in BRAND_ADVOCATE_SIGNALS text_lower) as ad.
    generalize (count_in EXCEPTIONAL_SATISFACTION text_lower) as ex.
    intros ex ad lo cs up.
    destruct (profile_cases lo ad ex)
      as [[-> H] | [[-> H] | [[-> H] | [[-> H] | [-> H]]]]];
      repeat split; intros; try discriminate; try lia;
      eapply opportunity_type_present; try eassumption; cbn; tauto.
  - rewrite (OpportunityFacts.find_on_other U _ _ _ E).
    repeat split; intros; try discriminate; reflexivity.
Qed.

Lemma profile_agrees_with_types_witness :
  In "advogado_marca"%string
     (opportunity_types
        (find_opportunities Latin.db (PyStr (u "Super recomendo!")) 5
           "positivo")).
Proof.
  destruct (profile_agrees_with_types Latin.db
              (PyStr (u "Super recomendo!")) 5 "positivo") as (H & _).
  apply H. vm_compute. reflexivity.
Defined.

(** X10: the opportunity score is 0 exactly when no opportunity type
    is reported. *)
Theorem opportunity_score_zero_iff (U : unicode) (text : pyobj) (rating : Z)
        (sentiment : string) :
  (opportunity_score (find_opportunities U text rating sentiment) == 0)%Q
  <-> opportunity_types (find_opportunities U text rating sentiment) = [].
Proof.
  pose proof (OpportunityFacts.opportunity_score_tenths U text rating
                sentiment) as E.
  cbv zeta in E. rewrite E. clear E.
  destruct (truthy text && isinstance_str text) eqn:E.
  - apply andb_prop in E as [Ht Hs].
    rewrite (OpportunityFacts.find_on_text U _ _ _ Ht Hs). cbv zeta.
    cbn [opportunity_types OpportunityFinder.signals_detected].
    rewrite opportunity_types_empty.
    unfold OpportunityFacts.tenths, OpportunityFacts.factor, Qeq.
    cbn [upsell cross_sell loyalty brand_advocate exceptional_satisfaction
         Qnum Qden].
    destruct (rating =? 5)%Z; [| destruct (rating =? 4)%Z]; lia.
  - rewrite (OpportunityFacts.find_on_other U _ _ _ E).
    rewrite OpportunityFacts.tenths_no_opportunity. now split.
Qed.

Lemma classify_alta_needs (score : Q) (rating : Z) (sentiment : string) :
  _classify_opportunity score rating sentiment = "alta_oportunidade"%string ->
  (4 <= rating)%Z /\ sentiment <> "negativo"%string /\ (30 <= score)%Q.
Proof.
  unfold _classify_opportunity.
  destruct (String.eqb_spec sentiment "negativo") as [-> | Hs];
    [discriminate |].
  destruct (rating <? 4)%Z eqn:Er; [discriminate |].
  apply Z.ltb_ge in Er. cbn [orb].
  destruct (Qle_bool 50 score) eqn:E50.
  - intros _. apply Qle_bool_iff in E50. repeat split; auto.
    apply Qle_trans with (y := 50%Q); [discriminate | exact E50].
  - destruct ((rating =? 5)%Z && Qle_bool 30 score) eqn:E30.
    + intros _. apply andb_prop in E30 as [_ E30].
      apply Qle_bool_iff in E30. repeat split; auto.
    + cbn [orb].
      repeat match goal with
             | |- context [if ?b then _ else _] => destruct b
             end; discriminate.
Qed.

(** X11: a high-value result has a rating of at least 4, a sentiment
    other than 'negativo' and a score of at least 30. *)
Theorem high_value_needs (U : unicode) (text : pyobj) (rating : Z)
        (sentiment : string) :
  is_high_value (find_opportunities U text rating sentiment) = true ->
  (4 <= rating)%Z /\ sentiment <> "negativo"%string
  /\ (30 <= opportunity_score (find_opportunities U text rating sentiment))%Q.
Proof.
  intros H. destruct (truthy text && isinstance_str text) eqn:E.
  - apply andb_prop in E as [Ht Hs].
    rewrite (OpportunityFacts.find_on_text U _ _ _ Ht Hs) in *.
    cbv zeta in *. cbn [is_high_value opportunity_score] in *.
    apply String.eqb_eq in H. apply classify_alta_needs in H.
    destruct H as (Hr & Hn & Hscore). repeat split; auto.
    rewrite (round2_of_tenths _ _
               (OpportunityFacts.opportunity_unrounded _ rating)).
    now rewrite <- (OpportunityFacts.opportunity_unrounded _ rating).
  - rewrite (OpportunityFacts.find_on_other U _ _ _ E) in H. discriminate.
Qed.

Lemma high_value_needs_witness :
  (30 <= opportunity_score
           (find_opportunities Latin.db (PyStr (u "Super recomendo!")) 5
              "positivo"))%Q.
Proof.
  apply (high_value_needs Latin.db (PyStr (u "Super recomendo!")) 5
           "positivo").
  vm_compute. reflexivity.
Defined.

(** X12: with one of the two sentiment labels of the data set,
    'positivo' or 'negativo', no review is at the same time a critical
    churn risk and a high-value opportunity. *)
Theorem critical_excludes_high_value (U : unicode) (text : pyobj)
        (rating : Z) (sentiment : string) :
  sentiment = "positivo"%string \/ sentiment = "negativo"%string ->
  is_critical (detect_churn_risk U text rating sentiment)
  && is_high_value (find_opportunities U text rating sentiment) = false.
Proof.
  intros Hs.
  destruct (is_high_value (find_opportunities U text rating sentiment))
    eqn:Eh; [| apply andb_false_r].
  rewrite andb_true_r.
  destruct (high_value_needs U text rating sentiment Eh) as (Hr & Hn & _).
  destruct Hs as [-> | ->]; [| congruence].
  now apply positive_high_rating_no_risk.
Qed.

Lemma critical_excludes_high_value_witness :
  is_critical
    (detect_churn_risk Latin.db (PyStr (u "Super recomendo, mas que golpe"))
       5 "negativo")
  && is_high_value
       (find_opportunities Latin.db
          (PyStr (u "Super recomendo, mas que golpe")) 5 "negativo")
  = false.
Proof.
  apply (critical_excludes_high_value Latin.db
           (PyStr (u "Super recomendo, mas que golpe")) 5 "negativo").
  right. reflexivity.
Defined.



(* ===================================================================== *)
(** * preprocessing/text_cleaner.py: the shape of a cleaned text          *)
(* ===================================================================== *)

Lemma clean_text_tidy_any (U : unicode) (text : option str) :
  CleanerFacts.tidy U (clean_text U text).
Proof.
  destruct text as [t |]; [apply CleanerFacts.clean_text_tidy |].
  constructor; try reflexivity; constructor.
Qed.

(** X14: a cleaned text is in whitespace normal form: stripping it and
    collapsing its whitespace change nothing, and its only whitespace
    character is the space. *)
Theorem clean_text_whitespace (U : unicode) (text : option str) :
  strip U (clean_text U text) = clean_text U text
  /\ _remove_extra_spaces U (clean_text U text) = clean_text U text
  /\ Forall (fun c => isspace U c = true -> c = 32%N) (clean_text U text).
Proof.
  destruct (clean_text_tidy_any U text) as [Hs Hp Hadj Hleft Hright].
  repeat split.
  - unfold strip. now rewrite (CleanerFacts.lstrip_fixed U _ Hleft).
  - apply CleanerFacts.sub_space_runs_fixed; auto.
  - revert Hs. apply Forall_impl. now intros c [_ H].
Qed.

(** X15: a cleaned text holds only characters of the kept class and no
    run of punctuation: [_remove_special_chars] leaves it unchanged.
    In particular it holds no [@] and no [:], so that
    [_remove_emails] leaves it unchanged as well. *)
Theorem clean_text_characters (U : unicode) (text : option str) :
  _remove_special_chars U (clean_text U text) = clean_text U text
  /\ _remove_emails U (clean_text U text) = clean_text U text
  /\ ~ In 64%N (clean_text U text)
  /\ ~ In 58%N (clean_text U text).
Proof.
  destruct (clean_text_tidy_any U text) as [Hs Hp Hadj Hleft Hright].
  repeat split.
  - unfold _remove_special_chars.
    now rewrite (CleanerFacts.filter_fixed U _ Hs),
      (CleanerFacts.sub_punct_runs_fixed _ Hp).
  - apply CleanerFacts.delete_matches_none, CleanerFacts.never_email, Hs.
  - intros Hin. rewrite Forall_forall in Hs. destruct (Hs _ Hin) as [Hk _].
    rewrite CleanerFacts.at_sign_dropped in Hk. discriminate.
  - intros Hin. rewrite Forall_forall in Hs. destruct (Hs _ Hin) as [Hk _].
    rewrite CleanerFacts.colon_dropped in Hk. discriminate.
Qed.

(* ===================================================================== *)
(** * preprocessing/text_cleaner.py: tokens and emojis                    *)
(* ===================================================================== *)

Module TextTokens.

(** A Python [set]; only membership is asked of it. *)
Definition ECOMMERCE_STOPWORDS : list str := map u
  [ "o"; "a"; "de"; "da"; "do"; "em"; "para"; "com"; "por"; "no"; "na";
    "os"; "as"; "dos"; "das"; "um"; "uma"; "ao"; "aos"; "à"; "às";
    "produto"; "comprei"; "compra"; "chegou"; "recebi"; "entrega";
    "prazo"; "site"; "loja"; "e"; "que"; "mais"; "muito"; "bem";
    "quando"; "como"; "também"; "já"; "está"; "foi"; "ser"; "ter"
  ]%string.

Definition is_stopword (t : str) : bool :=
  existsb (str_eqb t) ECOMMERCE_STOPWORDS.

(** The four ranges of the class of [extract_emojis]. *)
Definition is_emoji (c : codepoint) : bool :=
  between 128512 128591 c      (* U+1F600 .. U+1F64F *)
  || between 127744 128511 c   (* U+1F300 .. U+1F5FF *)
  || between 128640 128767 c   (* U+1F680 .. U+1F6FF *)
  || between 127456 127487 c.  (* U+1F1E0 .. U+1F1FF *)

(** [pattern.findall(s)] for a pattern [[class]+]: the maximal runs of
    characters of the class; [run] is the run read so far. *)
Fixpoint findall_runs (cls : codepoint -> bool) (run : str) (s : str)
  : list str :=
  match s with
  | [] => match run with [] => [] | _ => [run] end
  | c :: r =>
      if cls c then findall_runs cls (run ++ [c]) r
      else match run with
           | [] => findall_runs cls [] r
           | _ => run :: findall_runs cls [] r
           end
  end.

Definition extract_emojis (text : str) : list str :=
  findall_runs is_emoji [] text.

Section Tokenize.
Variable U : unicode.

Definition tokenize_for_analysis (text : str) (remove_stopwords : bool)
  : list str :=
  let tokens := split U text in
  let tokens :=
    if remove_stopwords
    then filter (fun t => negb (is_stopword t)) tokens
    else tokens in
  filter (fun t => 2 <? List.length t) tokens.

End Tokenize.
End TextTokens.

Import TextTokens.

Lemma split_from_words (U : unicode) (s : str) :
  forall word,
    Forall (fun c => isspace U c = false) word ->
    Forall (fun w => w <> [] /\ Forall (fun c => isspace U c = false) w)
           (split_from U word s).
Proof.
  induction s as [| c r IH]; intros word Hw; cbn [split_from].
  - destruct word as [| w0 word'];
      [apply Forall_nil
      | apply Forall_cons;
        [split; [discriminate | assumption] | apply Forall_nil]].
  - destruct (isspace U c) eqn:E.
    + destruct word as [| w0 word'].
      * apply IH. constructor.
      * constructor; [split; [discriminate | assumption] |].
        apply IH. constructor.
    + apply IH. apply Forall_app. split; [assumption | now repeat constructor].
Qed.

(** X16: every token of [tokenize_for_analysis] has more than two
    characters, none of them whitespace; with [remove_stopwords] no
    token is a stopword, and the tokens are those of the call without
    it, minus the stopwords, in the same order. *)
Theorem tokenize_for_analysis_tokens (U : unicode) (text : str)
        (remove_stopwords : bool) :
  Forall (fun t => 2 < List.length t
                   /\ Forall (fun c => isspace U c = false) t
                   /\ (remove_stopwords = true -> is_stopword t = false))
         (tokenize_for_analysis U text remove_stopwords)
  /\ tokenize_for_analysis U text true
     = filter (fun t => negb (is_stopword t))
              (tokenize_for_analysis U text false).
Proof.
  split.
  - apply Forall_forall. intros t Hin. unfold tokenize_for_analysis in Hin.
    apply filter_In in Hin as [Hin Hlen]. apply Nat.ltb_lt in Hlen.
    pose proof (split_from_words U text [] (Forall_nil _)) as Hw.
    rewrite Forall_forall in Hw.
    destruct remove_stopwords.
    + apply filter_In in Hin as [Hin Hstop].
      destruct (Hw t Hin) as [_ Hsp]. repeat split; auto.
      intros _. now apply negb_true_iff.
    + destruct (Hw t Hin) as [_ Hsp]. repeat split; auto. discriminate.
  - unfold tokenize_for_analysis.
    generalize (split U text) as tokens.
    induction tokens as [| t tokens IH]; [reflexivity |].
    cbn [filter]. destruct (negb (is_stopword t)) eqn:Es;
      destruct (2 <? List.length t) eqn:El; cbn [filter];
      rewrite ?Es, ?El, IH; reflexivity.
Qed.

Lemma findall_runs_concat (cls : codepoint -> bool) (s : str) :
  forall run, List.concat (findall_runs cls run s) = run ++ filter cls s.
Proof.
  induction s as [| c r IH]; intros run; cbn [findall_runs filter].
  - destruct run; cbn; now rewrite ?app_nil_r.
  - destruct (cls c).
    + rewrite IH. now rewrite <- app_assoc.
    + destruct run as [| x run'].
      * now rewrite IH.
      * cbn [List.concat]. now rewrite IH.
Qed.

Lemma findall_runs_items (cls : codepoint -> bool) (s : str) :
  forall run,
    Forall (fun c => cls c = true) run ->
    Forall (fun item => item <> [] /\ Forall (fun c => cls c = true) item)
           (findall_runs cls run s).
Proof.
  induction s as [| c r IH]; intros run Hrun; cbn [findall_runs].
  - destruct run as [| x run'];
      [apply Forall_nil
      | apply Forall_cons;
        [split; [discriminate | assumption] | apply Forall_nil]].
  - destruct (cls c) eqn:E.
    + apply IH. apply Forall_app. split; [assumption | now repeat constructor].
    + destruct run as [| x run'].
      * apply IH. constructor.
      * apply Forall_cons; [split; [discriminate | assumption] |].
        apply IH. constructor.
Qed.

(** X17: [extract_emojis] cuts the emoji characters of the text into
    non-empty runs: every item is made of emoji characters only, and
    the items put together are exactly the emoji characters of the
    text, in order. *)
Theorem extract_emojis_runs (text : str) :
  Forall (fun item => item <> []
                      /\ Forall (fun c => is_emoji c = true) item)
         (extract_emojis text)
  /\ List.concat (extract_emojis text) = filter is_emoji text.
Proof.
  split.
  - apply findall_runs_items. constructor.
  - apply (findall_runs_concat is_emoji text []).
Qed.

Lemma listed_below_256 (c : codepoint) :
  mem c LISTED = true -> (c < 256)%N.
Proof.
  unfold mem. intros H. apply existsb_exists in H as (x & Hin & Hx).
  apply N.eqb_eq in Hx. subst x. revert Hin. vm_compute.
  intros H; repeat (destruct H as [<- | H]; [reflexivity |]); destruct H.
Qed.

Lemma emoji_range (c : codepoint) :
  is_emoji c = true -> (127456 <= c)%N.
Proof.
  unfold is_emoji, between.
  rewrite !orb_true_iff, !andb_true_iff, !N.leb_le. lia.
Qed.

Lemma emoji_not_kept (U : unicode) (c : codepoint) :
  isalnum_high U c = false -> isspace_high U c = false ->
  is_emoji c = true -> kept U c = false.
Proof.
  intros Ha Hsp E. apply emoji_range in E.
  assert (Hhigh : (c <? 128)%N = false) by (apply N.ltb_ge; lia).
  unfold kept, isword, isspace. rewrite Hhigh, Ha, Hsp. cbn [orb].
  destruct (mem c LISTED) eqn:Hm; [| reflexivity].
  apply listed_below_256 in Hm. lia.
Qed.

(** X18: where the Unicode tables class no character of the emoji
    ranges as alphanumeric or as whitespace (Python's do not), a
    cleaned text holds no emoji: [extract_emojis] finds nothing in it,
    so emojis have to be extracted before cleaning. *)
Theorem clean_text_drops_emojis (U : unicode) (text : option str) :
  (forall c, is_emoji c = true ->
             isalnum_high U c = false /\ isspace_high U c = false) ->
  extract_emojis (clean_text U text) = [].
Proof.
  intros HU.
  destruct (clean_text_tidy_any U text) as [Hs _ _ _ _].
  assert (Hnone : filter is_emoji (clean_text U text) = []).
  { induction Hs as [| c r [Hk _] Hr IH]; [reflexivity |].
    cbn [filter]. destruct (is_emoji c) eqn:E; [| exact IH].
    destruct (HU c E) as [Ha Hsp].
    rewrite (emoji_not_kept U c Ha Hsp E) in Hk. discriminate. }
  destruct (extract_emojis_runs (clean_text U text)) as [Hitems Hcat].
  rewrite Hnone in Hcat.
  destruct (extract_emojis (clean_text U text)) as [| item items];
    [reflexivity |].
  inversion Hitems as [| ? ? [Hne _] _]; subst.
  destruct item; [congruence | discriminate].
Qed.

Lemma clean_text_drops_emojis_witness :
  extract_emojis [79; 116; 105; 109; 111; 32; 128512; 128513]%N
  = [[128512; 128513]%N]
  /\ extract_emojis
       (clean_text Latin.db
          (Some [79; 116; 105; 109; 111; 32; 128512; 128513]%N))
     = [].
Proof.
  split; [reflexivity |].
  apply (clean_text_drops_emojis Latin.db).
  intros c Hc. split; [| unfold Latin.db; cbn [isspace_high]].
  - unfold Latin.db. cbn [isalnum_high]. unfold Latin.is_letter, between.
    revert Hc. unfold is_emoji, between.
    rewrite !orb_true_iff, !andb_true_iff, !N.leb_le. intros Hc.
    apply andb_false_iff. left. apply andb_false_iff. left.
    apply andb_false_iff. right. apply N.leb_gt. lia.
  - revert Hc. unfold is_emoji, between.
    rewrite !orb_true_iff, !andb_true_iff, !N.leb_le. intros Hc.
    apply orb_false_iff. split; apply N.eqb_neq; lia.
Defined.

(* ===================================================================== *)
(** * preprocessing/category_extractor.py: batches and mentions           *)
(* ===================================================================== *)

Module CategoryBatch.

Definition get_all_categories : list string :=
  map fst CATEGORY_KEYWORDS ++ ["Outros"%string].

(** [collections.Counter] as the dictionary it is: a key is entered at
    its first occurrence and counted up at the later ones. *)
Fixpoint counter_add (key : string) (counts : list (string * nat))
  : list (string * nat) :=
  match counts with
  | [] => [(key, 1)]
  | (k, n) :: rest =>
      if String.eqb k key then (k, S n) :: rest
      else (k, n) :: counter_add key rest
  end.

Definition Counter (items : list string) : list (string * nat) :=
  fold_left (fun counts key => counter_add key counts) items [].

(** The three patterns of [extract_product_mentions]. *)
Definition MENTION_PATTERNS : list string :=
  [ "\b(samsung|apple|lg|motorola|xiaomi|sony|philips|brastemp|consul)\b";
    "\b(galaxy|iphone|moto g|redmi|positivo)\s*\w*\b";
    "\b(\w+\s*\d{2,4})\b" ]%string.

(** The loop that removes duplicates: a mention is kept when it is not
    in [seen] and has more than two characters. *)
Fixpoint unique_mentions (seen unique : list str) (mentions : list str)
  : list str :=
  match mentions with
  | [] => unique
  | mention :: rest =>
      if negb (existsb (str_eqb mention) seen)
         && (2 <? List.length mention)
      then unique_mentions (seen ++ [mention]) (unique ++ [mention]) rest
      else unique_mentions seen unique rest
  end.

Section Batch.
Variable U : unicode.

(** [re.findall(pattern, text)] for a pattern with one group; the
    regular-expression engine is the interpreter's. *)
Variable findall : string -> str -> list str.

Definition get_category_distribution (texts : list pyobj)
  : list (string * nat) :=
  let categories := map (fun text => fst (extract_category U text)) texts in
  Counter categories.

Definition extract_product_mentions (text : pyobj) : list str :=
  if negb (truthy text) || negb (isinstance_str text) then []
  else
    let text_lower := str_lower U (as_str text) in
    let mentions :=
      flat_map (fun pattern => findall pattern text_lower) MENTION_PATTERNS in
    firstn 5 (unique_mentions [] [] mentions).

End Batch.
End CategoryBatch.

Import CategoryBatch.

Definition occurrences (key : string) (items : list string) : nat :=
  List.length (filter (String.eqb key) items).

Definition counter_get (key : string) (counts : list (string * nat)) : nat :=
  match find (fun entry => String.eqb (fst entry) key) counts with
  | Some entry => snd entry
  | None => 0
  end.

Lemma counter_add_get (key c : string) (counts : list (string * nat)) :
  counter_get c (counter_add key counts)
  = counter_get c counts + (if String.eqb c key then 1 else 0).
Proof.
  unfold counter_get.
  induction counts as [| [k n] rest IH]; cbn [counter_add find fst snd].
  - rewrite String.eqb_sym. destruct (String.eqb c key); reflexivity.
  - destruct (String.eqb_spec k key) as [-> | Hk]; cbn [find fst snd].
    + rewrite (String.eqb_sym c key).
      destruct (String.eqb key c); cbn [snd]; lia.
    + destruct (String.eqb_spec k c) as [-> | Hc]; [| exact IH].
      destruct (String.eqb_spec c key); [congruence | cbn [snd]; lia].
Qed.

Lemma counter_add_keys (key : string) (counts : list (string * nat)) :
  NoDup (map fst counts) ->
  NoDup (map fst (counter_add key counts))
  /\ (forall c, In c (map fst (counter_add key counts))
                <-> c = key \/ In c (map fst counts)).
Proof.
  induction counts as [| [k n] rest IH]; cbn [counter_add map fst]; intros Hnd.
  - split; [repeat constructor; intros [] | intros c; cbn; intuition].
  - inversion Hnd as [| ? ? Hnot Hrest]; subst.
    destruct (String.eqb_spec k key) as [-> | Hk]; cbn [map fst].
    + split; [assumption | intros c; cbn; intuition].
    + destruct (IH Hrest) as [Hnd' Hkeys]. split.
      * constructor; [| assumption]. rewrite Hkeys. intros [-> | H]; auto.
      * intros c. cbn [In]. rewrite Hkeys. intuition.
Qed.

Lemma counter_add_positive (key : string) (counts : list (string * nat)) :
  Forall (fun entry => 0 < snd entry) counts ->
  Forall (fun entry => 0 < snd entry) (counter_add key counts).
Proof.
  induction 1 as [| [k n] rest Hn Hrest IH]; cbn [counter_add].
  - repeat constructor.
  - destruct (String.eqb k key); constructor; auto. cbn. lia.
Qed.

Lemma list_sum_step (x : nat) (l : list nat) :
  list_sum (x :: l) = x + list_sum l.
Proof. reflexivity. Qed.

Lemma counter_add_total (key : string) (counts : list (string * nat)) :
  list_sum (map snd (counter_add key counts))
  = S (list_sum (map snd counts)).
Proof.
  induction counts as [| [k n] rest IH]; cbn [counter_add]; [reflexivity |].
  destruct (String.eqb k key); cbn [map snd]; rewrite ?list_sum_step;
    [lia |].
  rewrite IH. lia.
Qed.

(** What [Counter] keeps while it reads the items. *)
Lemma Counter_from (items : list string) :
  forall counts,
    NoDup (map fst counts) ->
    Forall (fun entry => 0 < snd entry) counts ->
    let result :=
      fold_left (fun counts key => counter_add key counts) items counts in
    NoDup (map fst result)
    /\ Forall (fun entry => 0 < snd entry) result
    /\ list_sum (map snd result)
       = list_sum (map snd counts) + List.length items
    /\ (forall c, counter_get c result
                  = counter_get c counts + occurrences c items)
    /\ (forall c, In c (map fst result)
                  <-> In c (map fst counts) \/ In c items).
Proof.
  induction items as [| key items IH]; intros counts Hnd Hpos; cbn zeta.
  - cbn [fold_left List.length]. unfold occurrences. cbn [filter List.length].
    repeat split; auto; try lia; cbn [In]; intuition.
  - cbn [fold_left].
    destruct (counter_add_keys key counts Hnd) as [Hnd' Hkeys].
    pose proof (counter_add_positive key counts Hpos) as Hpos'.
    destruct (IH _ Hnd' Hpos') as (H1 & H2 & H3 & H4 & H5).
    repeat split; auto.
    + rewrite H3, counter_add_total. cbn [List.length]. lia.
    + intros c. rewrite H4, counter_add_get. unfold occurrences.
      cbn [filter]. destruct (String.eqb c key); cbn [List.length]; lia.
    + rewrite H5, Hkeys. cbn [In]. intuition.
    + rewrite H5, Hkeys. cbn [In]. intuition.
Qed.

Lemma counter_get_entry (counts : list (string * nat)) (c : string)
      (n : nat) :
  NoDup (map fst counts) -> In (c, n) counts -> counter_get c counts = n.
Proof.
  unfold counter_get.
  induction counts as [| [k m] rest IH]; intros Hnd Hin; [destruct Hin |].
  inversion Hnd as [| ? ? Hnot Hrest]; subst. cbn [find fst].
  destruct Hin as [H | Hin].
  - injection H as -> ->. now rewrite String.eqb_refl.
  - destruct (String.eqb_spec k c) as [-> | Hk]; [| auto].
    exfalso. apply Hnot. apply in_map_iff. now exists (c, n).
Qed.

(** X19: whatever the input, the category returned by
    [extract_category] is one of [get_all_categories()]. *)
Theorem category_is_listed (U : unicode) (text : pyobj) :
  In (fst (extract_category U text)) get_all_categories.
Proof.
  unfold get_all_categories. apply in_or_app.
  destruct (CategoryFacts.extract_category_cases U text)
    as [E | (s & cat & n & _ & _ & Hfm & E)]; rewrite E; cbn [fst].
  - right. now left.
  - left. destruct Hfm as (before & kws & after & HT & _).
    rewrite HT, map_app. apply in_or_app. right. now left.
Qed.

(** X20: [get_category_distribution] has one entry per category that
    occurs, each with the number of texts of that category; the counts
    add up to the number of texts and every key is one of
    [get_all_categories()]. *)
Theorem category_distribution_counts (U : unicode) (texts : list pyobj) :
  NoDup (map fst (get_category_distribution U texts))
  /\ list_sum (map snd (get_category_distribution U texts))
     = List.length texts
  /\ (forall c n,
         In (c, n) (get_category_distribution U texts) ->
         0 < n
         /\ In c get_all_categories
         /\ n = occurrences c
                  (map (fun text => fst (extract_category U text)) texts)).
Proof.
  unfold get_category_distribution, Counter. cbv zeta.
  set (categories := map (fun text => fst (extract_category U text)) texts).
  destruct (Counter_from categories [] (NoDup_nil _) (Forall_nil _))
    as (Hnd & Hpos & Hsum & Hget & Hkeys).
  repeat split; auto.
  - rewrite Hsum. unfold categories. now rewrite length_map.
  - rewrite Forall_forall in Hpos. apply (Hpos (c, n) H).
  - assert (Hc : In c categories).
    { apply (in_map fst) in H. apply Hkeys in H as [[] | H]. exact H. }
    unfold categories in Hc. apply in_map_iff in Hc as (text & <- & _).
    apply category_is_listed.
  - rewrite <- (counter_get_entry _ c n Hnd H). rewrite Hget. reflexivity.
Qed.

Lemma str_eqb_eq (a b : str) : str_eqb a b = true <-> a = b.
Proof.
  unfold str_eqb. destruct (list_eq_dec N.eq_dec a b); split; congruence.
Qed.

Lemma not_seen (mention : str) (seen : list str) :
  existsb (str_eqb mention) seen = false -> ~ In mention seen.
Proof.
  intros H Hin.
  assert (existsb (str_eqb mention) seen = true); [| congruence].
  apply existsb_exists. exists mention. split; [assumption |].
  now apply str_eqb_eq.
Qed.

Lemma unique_mentions_spec (mentions : list str) :
  forall seen unique,
    incl unique seen -> NoDup unique ->
    NoDup (unique_mentions seen unique mentions)
    /\ forall m, In m (unique_mentions seen unique mentions) ->
                 In m unique \/ (In m mentions /\ 2 < List.length m).
Proof.
  induction mentions as [| mention rest IH]; intros seen unique Hincl Hnd;
    cbn [unique_mentions].
  - split; [assumption | now left].
  - destruct (negb (existsb (str_eqb mention) seen) && (2 <? List.length mention))
      eqn:E.
    + apply andb_prop in E as [Hnew Hlen].
      apply negb_true_iff, not_seen in Hnew. apply Nat.ltb_lt in Hlen.
      destruct (IH (seen ++ [mention]) (unique ++ [mention])) as [H1 H2].
      * intros x Hx. apply in_app_or in Hx. apply in_or_app.
        destruct Hx as [Hx | Hx]; [left; now apply Hincl | now right].
      * apply NoDup_app;
          [assumption | repeat constructor; intros [] |].
        intros x Hx [<- | []]. apply Hnew. now apply Hincl.
      * split; [assumption |]. intros m Hm.
        destruct (H2 m Hm) as [Hu | [Hr Hl]].
        -- apply in_app_or in Hu as [Hu | [<- | []]]; [now left |].
           right. split; [now left | assumption].
        -- right. split; [now right | assumption].
    + destruct (IH seen unique Hincl Hnd) as [H1 H2].
      split; [assumption |]. intros m Hm.
      destruct (H2 m Hm) as [Hu | [Hr Hl]]; [now left |].
      right. split; [now right | assumption].
Qed.

Lemma firstn_incl (A : Type) (n : nat) (l : list A) : incl (firstn n l) l.
Proof.
  intros x Hx. rewrite <- (firstn_skipn n l). apply in_or_app. now left.
Qed.

Lemma firstn_NoDup (A : Type) (n : nat) (l : list A) :
  NoDup l -> NoDup (firstn n l).
Proof.
  intros H. rewrite <- (firstn_skipn n l) in H.
  now apply NoDup_app_remove_r in H.
Qed.

(** X21: [extract_product_mentions] returns at most five mentions, all
    different, each longer than two characters and each found by one of
    the three patterns in the lowercased text; it returns the empty
    list for a text that is not a non-empty string. *)
Theorem product_mentions_unique (U : unicode)
        (findall : string -> str -> list str) (text : pyobj) :
  NoDup (extract_product_mentions U findall text)
  /\ List.length (extract_product_mentions U findall text) <= 5
  /\ Forall (fun m =>
               2 < List.length m
               /\ exists pattern,
                    In pattern MENTION_PATTERNS
                    /\ In m (findall pattern (str_lower U (as_str text))))
            (extract_product_mentions U findall text)
  /\ (truthy text && isinstance_str text = false ->
      extract_product_mentions U findall text = []).
Proof.
  unfold extract_product_mentions.
  destruct (truthy text) eqn:Ht, (isinstance_str text) eqn:Hs;
    cbn [negb orb andb]; cbv zeta;
    try (repeat split; [constructor | cbn; lia | constructor]).
  set (mentions := flat_map _ MENTION_PATTERNS).
  destruct (unique_mentions_spec mentions [] [] (incl_refl _) (NoDup_nil _))
    as [Hnd Hin].
  repeat split.
  - now apply firstn_NoDup.
  - apply firstn_le_length.
  - apply Forall_forall. intros m Hm. apply firstn_incl in Hm.
    destruct (Hin m Hm) as [[] | [Hmen Hlen]]. split; [assumption |].
    unfold mentions in Hmen. apply in_flat_map in Hmen as (p & Hp & Hm').
    now exists p.
  - discriminate.
Qed.

(* ===================================================================== *)
(** * Statistics over a data set                                          *)
(* ===================================================================== *)

Module Statistics.

(** A row of the data frame, with the three columns the scorers read.
    [df.apply(..., axis=1)] is a map over the rows.  The functions
    below are for frames with at least one row: on an empty frame
    pandas' [apply] hands back frames instead of the series the code
    goes on to use. *)
Record row : Type := {
  avaliacao : pyobj;
  nota : Z;
  sentimento : string
}.

(** [(series == label).sum()]. *)
Definition count_label (label : string) (series : list string) : nat :=
  List.length (filter (fun x => String.eqb x label) series).

Definition sum (series : list Q) : Q := fold_right Qplus 0%Q series.

(** [series.mean()]; [None] stands for NaN. *)
Definition mean (series : list Q) : option Q :=
  match series with
  | [] => None
  | _ => Some (sum series / of_nat (List.length series))%Q
  end.

(** [(series == label).mean() * 100]. *)
Definition percent_label (label : string) (series : list string)
  : option Q :=
  option_map (fun m => (m * 100)%Q)
    (mean (map (fun x => if String.eqb x label then 1%Q else 0%Q) series)).

Record churn_statistics : Type := {
  total_avaliacoes : nat;
  alto_risco : nat;
  medio_risco : nat;
  baixo_risco : nat;
  sem_risco : nat;
  percentual_alto_risco : option Q;
  percentual_medio_risco : option Q;
  score_medio : option Q
}.

Record opportunity_statistics : Type := {
  o_total_avaliacoes : nat;
  alta_oportunidade : nat;
  media_oportunidade : nat;
  baixa_oportunidade : nat;
  sem_oportunidade : nat;
  percentual_alta_oportunidade : option Q;
  advogados_marca : nat;
  clientes_fieis : nat;
  o_score_medio : option Q
}.

(** A row of the frame returned by [get_top_opportunities]. *)
Record top_row : Type := {
  source : row;
  top_score : Q;
  top_level : string;
  top_profile : string
}.

(** [nlargest(n, column)]: the rows in descending order of the column,
    rows with equal values in their original order, cut after [n]. *)
Fixpoint insert_desc (x : top_row) (sorted : list top_row) : list top_row :=
  match sorted with
  | [] => [x]
  | y :: rest =>
      if Qle_bool (top_score y) (top_score x) then x :: sorted
      else y :: insert_desc x rest
  end.

Definition sort_desc (rows : list top_row) : list top_row :=
  fold_right insert_desc [] rows.

Definition nlargest (n : nat) (rows : list top_row) : list top_row :=
  firstn n (sort_desc rows).

Section Frames.
Variable U : unicode.

Definition get_churn_statistics (df : list row) : churn_statistics :=
  let churn_results :=
    map (fun r => detect_churn_risk U (avaliacao r) (nota r) (sentimento r))
        df in
  let risk_levels := map risk_level churn_results in
  {| total_avaliacoes := List.length df;
     alto_risco := count_label "alto_risco" risk_levels;
     medio_risco := count_label "medio_risco" risk_levels;
     baixo_risco := count_label "baixo_risco" risk_levels;
     sem_risco := count_label "sem_risco" risk_levels;
     percentual_alto_risco := percent_label "alto_risco" risk_levels;
     percentual_medio_risco := percent_label "medio_risco" risk_levels;
     score_medio := mean (map churn_score churn_results) |}.

Definition get_opportunity_statistics (df : list row)
  : opportunity_statistics :=
  let opportunity_results :=
    map (fun r => find_opportunities U (avaliacao r) (nota r) (sentimento r))
        df in
  let opportunity_levels := map opportunity_level opportunity_results in
  let customer_profiles := map customer_profile opportunity_results in
  {| o_total_avaliacoes := List.length df;
     alta_oportunidade := count_label "alta_oportunidade" opportunity_levels;
     media_oportunidade := count_label "media_oportunidade" opportunity_levels;
     baixa_oportunidade := count_label "baixa_oportunidade" opportunity_levels;
     sem_oportunidade := count_label "sem_oportunidade" opportunity_levels;
     percentual_alta_oportunidade :=
       percent_label "alta_oportunidade" opportunity_levels;
     advogados_marca := count_label "advogado_marca" customer_profiles;
     clientes_fieis := count_label "cliente_fiel" customer_profiles;
     o_score_medio := mean (map opportunity_score opportunity_results) |}.

Definition get_top_opportunities (df : list row) (n : nat) : list top_row :=
  let df_copy :=
    map (fun r =>
           let result :=
             find_opportunities U (avaliacao r) (nota r) (sentimento r) in
           {| source := r;
              top_score := opportunity_score result;
              top_level := opportunity_level result;
              top_profile := customer_profile result |}) df in
  nlargest n (filter (fun t => negb (Qle_bool (top_score t) 0)) df_copy).

End Frames.
End Statistics.

Import Statistics.

Lemma count_label_cons (label x : string) (series : list string) :
  count_label label (x :: series)
  = (if String.eqb x label then 1 else 0) + count_label label series.
Proof.
  unfold count_label. cbn [filter].
  destruct (String.eqb x label); reflexivity.
Qed.

(** Four different labels that cover a series split it in four. *)
Lemma count_label_partition (a b c d : string) (series : list string) :
  NoDup [a; b; c; d] ->
  Forall (fun x => In x [a; b; c; d]) series ->
  count_label a series + count_label b series + count_label c series
  + count_label d series = List.length series.
Proof.
  intros Hnd. induction 1 as [| x series Hx Hs IH]; [reflexivity |].
  rewrite !count_label_cons. cbn [List.length].
  assert (Hone : (if String.eqb x a then 1 else 0)
                 + (if String.eqb x b then 1 else 0)
                 + (if String.eqb x c then 1 else 0)
                 + (if String.eqb x d then 1 else 0) = 1).
  { inversion Hnd as [| ? ? Na Hnd1]; subst.
    inversion Hnd1 as [| ? ? Nb Hnd2]; subst.
    inversion Hnd2 as [| ? ? Nc Hnd3]; subst.
    cbn [In] in Na, Nb, Nc, Hx.
    destruct (String.eqb_spec x a), (String.eqb_spec x b),
      (String.eqb_spec x c), (String.eqb_spec x d); subst;
      try reflexivity; exfalso; intuition congruence. }
  lia.
Qed.

Lemma count_label_le (label : string) (series : list string) :
  count_label label series <= List.length series.
Proof. apply filter_length_le. Qed.

Lemma sum_indicator (label : string) (series : list string) :
  (Statistics.sum
     (map (fun x => if String.eqb x label then 1 else 0) series)
   == of_nat (count_label label series))%Q.
Proof.
  induction series as [| x series IH]; [reflexivity |].
  rewrite count_label_cons. cbn [map Statistics.sum fold_right].
  fold (Statistics.sum
          (map (fun x => if String.eqb x label then 1%Q else 0%Q) series)).
  rewrite IH. unfold of_nat.
  destruct (String.eqb x label); rewrite Nat2Z.inj_add, inject_Z_plus;
    reflexivity.
Qed.

Lemma of_nat_pos (n : nat) : 0 < n -> (0 < of_nat n)%Q.
Proof. intros H. unfold of_nat, Qlt. cbn. lia. Qed.

Lemma of_nat_le (n m : nat) : n <= m -> (of_nat n <= of_nat m)%Q.
Proof. intros H. unfold of_nat, Qle. cbn. lia. Qed.

(** The percentage of a label in a series that is not empty. *)
Lemma percent_label_value (label : string) (series : list string) :
  series <> [] ->
  exists p,
    percent_label label series = Some p
    /\ (p == of_nat (count_label label series)
             / of_nat (List.length series) * 100)%Q
    /\ (0 <= p <= 100)%Q.
Proof.
  intros Hne. unfold percent_label, mean.
  destruct series as [| x series]; [congruence |].
  set (l := x :: series) in *.
  change (map _ l) with (map (fun x => if String.eqb x label then 1%Q else 0%Q) l).
  destruct (map (fun x => if String.eqb x label then 1%Q else 0%Q) l)
    as [| q qs] eqn:E; [discriminate |].
  rewrite <- E. cbn [option_map]. rewrite length_map.
  eexists. split; [reflexivity |].
  assert (Hlen : 0 < List.length l) by (cbn; lia).
  pose proof (of_nat_pos _ Hlen) as Hpos.
  pose proof (of_nat_le _ _ (count_label_le label l)) as Hle.
  assert (Hc : (0 <= of_nat (count_label label l))%Q)
    by (unfold of_nat, Qle; cbn; lia).
  rewrite sum_indicator. split; [reflexivity |]. split.
  - apply Qmult_le_0_compat; [| discriminate].
    apply Qle_shift_div_l; [assumption |]. now rewrite Qmult_0_l.
  - setoid_replace 100%Q with (1 * 100)%Q at 2 by reflexivity.
    apply Qmult_le_compat_r; [| discriminate].
    apply Qle_shift_div_r; [assumption |]. now rewrite Qmult_1_l.
Qed.

Lemma sum_bounds (series : list Q) :
  Forall (fun x => (0 <= x <= 100)%Q) series ->
  (0 <= Statistics.sum series
   <= 100 * of_nat (List.length series))%Q.
Proof.
  induction 1 as [| x series [Hx0 Hx1] Hs [IH0 IH1]].
  - split; [apply Qle_refl | cbn; discriminate].
  - cbn [Statistics.sum fold_right List.length].
    fold (Statistics.sum series). split.
    + rewrite <- (Qplus_0_l 0). now apply Qplus_le_compat.
    + setoid_replace (100 * of_nat (S (List.length series)))%Q
        with (100 + 100 * of_nat (List.length series))%Q.
      * now apply Qplus_le_compat.
      * unfold of_nat, Qeq. cbn [Qnum Qden Qplus Qmult inject_Z]. lia.
Qed.

Lemma mean_bounds (series : list Q) :
  series <> [] ->
  Forall (fun x => (0 <= x <= 100)%Q) series ->
  exists m, mean series = Some m /\ (0 <= m <= 100)%Q.
Proof.
  intros Hne Hall. destruct (sum_bounds series Hall) as [H0 H1].
  unfold mean. destruct series as [| x series]; [congruence |].
  set (l := x :: series) in *. eexists. split; [reflexivity |].
  assert (Hlen : 0 < List.length l) by (cbn; lia).
  pose proof (of_nat_pos _ Hlen) as Hpos. split.
  - apply Qle_shift_div_l; [assumption |]. now rewrite Qmult_0_l.
  - apply Qle_shift_div_r; assumption.
Qed.

Lemma risk_level_labels (U : unicode) (text : pyobj) (rating : Z)
      (sentiment : string) :
  In (risk_level (detect_churn_risk U text rating sentiment))
     ["alto_risco"; "medio_risco"; "baixo_risco"; "sem_risco"]%string.
Proof.
  destruct (truthy text && isinstance_str text) eqn:E.
  - apply andb_prop in E as [Ht Hs].
    rewrite (ChurnFacts.detect_on_text U _ _ _ Ht Hs). cbv zeta.
    cbn [risk_level]. apply classify_risk_labels.
  - rewrite (ChurnFacts.detect_on_other U _ _ _ E). cbn. tauto.
Qed.

Lemma opportunity_level_labels (U : unicode) (text : pyobj) (rating : Z)
      (sentiment : string) :
  In (opportunity_level (find_opportunities U text rating sentiment))
     ["alta_oportunidade"; "media_oportunidade"; "baixa_oportunidade";
      "sem_oportunidade"]%string.
Proof.
  destruct (truthy text && isinstance_str text) eqn:E.
  - apply andb_prop in E as [Ht Hs].
    rewrite (OpportunityFacts.find_on_text U _ _ _ Ht Hs). cbv zeta.
    cbn [opportunity_level]. unfold _classify_opportunity.
    repeat match goal with
           | |- context [if ?b then _ else _] => destruct b
           end; cbn; tauto.
  - rewrite (OpportunityFacts.find_on_other U _ _ _ E). cbn. tauto.
Qed.

Lemma four_labels_distinct (a b c d : string) :
  (if list_eq_dec string_dec (nodup string_dec [a; b; c; d]) [a; b; c; d]
   then true else false) = true ->
  NoDup [a; b; c; d].
Proof.
  destruct (list_eq_dec _ _ _) as [E |]; [| discriminate].
  intros _. rewrite <- E. apply NoDup_nodup.
Qed.

(** X22: on a frame with at least one row, the four risk-level counts
    of [get_churn_statistics] add up to the number of rows, the
    percentage of high risk is [100 * alto_risco / total] and lies in
    [0, 100], and so does the mean score. *)
Theorem churn_statistics_consistent (U : unicode) (df : list row) :
  df <> [] ->
  total_avaliacoes (get_churn_statistics U df) = List.length df
  /\ alto_risco (get_churn_statistics U df)
     + medio_risco (get_churn_statistics U df)
     + baixo_risco (get_churn_statistics U df)
     + sem_risco (get_churn_statistics U df)
     = total_avaliacoes (get_churn_statistics U df)
  /\ (exists p,
         percentual_alto_risco (get_churn_statistics U df) = Some p
         /\ (p == of_nat (alto_risco (get_churn_statistics U df))
                  / of_nat (total_avaliacoes (get_churn_statistics U df))
                  * 100)%Q
         /\ (0 <= p <= 100)%Q)
  /\ (exists m,
         score_medio (get_churn_statistics U df) = Some m
         /\ (0 <= m <= 100)%Q).
Proof.
  intros Hne. unfold get_churn_statistics. cbv zeta.
  cbn [total_avaliacoes alto_risco medio_risco baixo_risco sem_risco
       percentual_alto_risco score_medio].
  set (results := map _ df).
  assert (Hres : results <> []) by (unfold results; now destruct df).
  assert (Hlen : List.length (map risk_level results) = List.length df)
    by (unfold results; now rewrite !length_map).
  repeat split.
  - rewrite <- Hlen. apply count_label_partition.
    + apply four_labels_distinct. reflexivity.
    + unfold results. rewrite map_map. apply Forall_forall.
      intros x Hx. apply in_map_iff in Hx as (r & <- & _).
      apply risk_level_labels.
  - rewrite <- Hlen. apply percent_label_value. now destruct results.
  - apply mean_bounds; [now destruct results |].
    unfold results. rewrite map_map. apply Forall_forall.
    intros x Hx. apply in_map_iff in Hx as (r & <- & _).
    apply ChurnFacts.churn_score_range.
Qed.

Definition sample_frame : list row :=
  [ {| avaliacao := PyStr (u "Produto horrível, um golpe");
       nota := 1; sentimento := "negativo" |};
    {| avaliacao := PyStr (u "Super recomendo, sempre compro aqui");
       nota := 5; sentimento := "positivo" |};
    {| avaliacao := PyStr (u "Recomendo, perfeito");
       nota := 4; sentimento := "positivo" |};
    {| avaliacao := PyNone; nota := 3; sentimento := "negativo" |} ].

Lemma churn_statistics_consistent_witness :
  alto_risco (get_churn_statistics Latin.db sample_frame)
  + medio_risco (get_churn_statistics Latin.db sample_frame)
  + baixo_risco (get_churn_statistics Latin.db sample_frame)
  + sem_risco (get_churn_statistics Latin.db sample_frame)
  = total_avaliacoes (get_churn_statistics Latin.db sample_frame).
Proof.
  destruct (churn_statistics_consistent Latin.db sample_frame
              ltac:(discriminate)) as (_ & H & _).
  exact H.
Defined.

(** X23: on a frame with at least one row, the four opportunity-level
    counts of [get_opportunity_statistics] add up to the number of
    rows, the two profile counts are no larger than it, the percentage
    of high opportunity is [100 * alta_oportunidade / total] and lies
    in [0, 100], and so does the mean score. *)
Theorem opportunity_statistics_consistent (U : unicode) (df : list row) :
  df <> [] ->
  o_total_avaliacoes (get_opportunity_statistics U df) = List.length df
  /\ alta_oportunidade (get_opportunity_statistics U df)
     + media_oportunidade (get_opportunity_statistics U df)
     + baixa_oportunidade (get_opportunity_statistics U df)
     + sem_oportunidade (get_opportunity_statistics U df)
     = o_total_avaliacoes (get_opportunity_statistics U df)
  /\ advogados_marca (get_opportunity_statistics U df)
     + clientes_fieis (get_opportunity_statistics U df)
     <= o_total_avaliacoes (get_opportunity_statistics U df)
  /\ (exists p,
         percentual_alta_oportunidade (get_opportunity_statistics U df)
         = Some p
         /\ (p == of_nat (alta_oportunidade (get_opportunity_statistics U df))
                  / of_nat
                      (o_total_avaliacoes (get_opportunity_statistics U df))
                  * 100)%Q
         /\ (0 <= p <= 100)%Q)
  /\ (exists m,
         o_score_medio (get_opportunity_statistics U df) = Some m
         /\ (0 <= m <= 100)%Q).
Proof.
  intros Hne. unfold get_opportunity_statistics. cbv zeta.
  cbn [o_total_avaliacoes alta_oportunidade media_oportunidade
       baixa_oportunidade sem_oportunidade percentual_alta_oportunidade
       advogados_marca clientes_fieis o_score_medio].
  set (results := map _ df).
  assert (Hres : results <> []) by (unfold results; now destruct df).
  assert (Hlen : List.length (map opportunity_level results)
                 = List.length df)
    by (unfold results; now rewrite !length_map).
  assert (Hlen' : List.length (map customer_profile results)
                  = List.length df)
    by (unfold results; now rewrite !length_map).
  repeat split.
  - rewrite <- Hlen. apply count_label_partition.
    + apply four_labels_distinct. reflexivity.
    + unfold results. rewrite map_map. apply Forall_forall.
      intros x Hx. apply in_map_iff in Hx as (r & <- & _).
      apply opportunity_level_labels.
  - rewrite <- Hlen'. generalize (map customer_profile results) as series.
    induction series as [| x series IH]; [cbn; lia |].
    rewrite !count_label_cons. cbn [List.length].
    destruct (String.eqb_spec x "advogado_marca") as [-> | _];
      [cbn [String.eqb Ascii.eqb Bool.eqb]; lia |].
    destruct (String.eqb x "cliente_fiel"); lia.
  - rewrite <- Hlen. apply percent_label_value. now destruct results.
  - apply mean_bounds; [now destruct results |].
    unfold results. rewrite map_map. apply Forall_forall.
    intros x Hx. apply in_map_iff in Hx as (r & <- & _).
    apply OpportunityFacts.opportunity_score_range.
Qed.

Lemma opportunity_statistics_consistent_witness :
  alta_oportunidade (get_opportunity_statistics Latin.db sample_frame)
  + media_oportunidade (get_opportunity_statistics Latin.db sample_frame)
  + baixa_oportunidade (get_opportunity_statistics Latin.db sample_frame)
  + sem_oportunidade (get_opportunity_statistics Latin.db sample_frame)
  = o_total_avaliacoes (get_opportunity_statistics Latin.db sample_frame).
Proof.
  destruct (opportunity_statistics_consistent Latin.db sample_frame
              ltac:(discriminate)) as (_ & H & _).
  exact H.
Defined.

Definition score_ge (a b : top_row) : Prop := (top_score b <= top_score a)%Q.

Lemma insert_desc_In (x y : top_row) (sorted : list top_row) :
  In y (insert_desc x sorted) <-> y = x \/ In y sorted.
Proof.
  induction sorted as [| z rest IH]; cbn [insert_desc].
  - cbn. intuition.
  - destruct (Qle_bool (top_score z) (top_score x)); cbn [In].
    + intuition.
    + rewrite IH. intuition.
Qed.

Lemma insert_desc_length (x : top_row) (sorted : list top_row) :
  List.length (insert_desc x sorted) = S (List.length sorted).
Proof.
  induction sorted as [| z rest IH]; cbn [insert_desc]; [reflexivity |].
  destruct (Qle_bool (top_score z) (top_score x)); cbn [List.length]; lia.
Qed.

Lemma insert_desc_sorted (x : top_row) (sorted : list top_row) :
  StronglySorted score_ge sorted ->
  StronglySorted score_ge (insert_desc x sorted).
Proof.
  induction 1 as [| z rest Hrest IH Hz]; cbn [insert_desc].
  - repeat constructor.
  - destruct (Qle_bool (top_score z) (top_score x)) eqn:E.
    + apply Qle_bool_iff in E. constructor; [now constructor |].
      constructor; [exact E |].
      revert Hz. apply Forall_impl. intros w Hw. unfold score_ge in *.
      eapply Qle_trans; eauto.
    + assert (Hlt : (top_score x < top_score z)%Q).
      { apply Qnot_le_lt. intros H. apply Qle_bool_iff in H. congruence. }
      constructor; [exact IH |].
      apply Forall_forall. intros w Hw. apply insert_desc_In in Hw.
      destruct Hw as [-> | Hw].
      * unfold score_ge. now apply Qlt_le_weak.
      * rewrite Forall_forall in Hz. now apply Hz.
Qed.

Lemma sort_desc_facts (rows : list top_row) :
  StronglySorted score_ge (sort_desc rows)
  /\ List.length (sort_desc rows) = List.length rows
  /\ (forall y, In y (sort_desc rows) <-> In y rows).
Proof.
  induction rows as [| x rows (IH1 & IH2 & IH3)]; cbn [sort_desc fold_right].
  - repeat split; auto. constructor.
  - fold (sort_desc rows). repeat split.
    + now apply insert_desc_sorted.
    + rewrite insert_desc_length, IH2. reflexivity.
    + intros H. apply insert_desc_In in H. cbn [In]. rewrite <- IH3.
      intuition.
    + intros H. apply insert_desc_In. cbn [In] in H. rewrite IH3.
      intuition.
Qed.

Lemma firstn_sorted (n : nat) (rows : list top_row) :
  StronglySorted score_ge rows -> StronglySorted score_ge (firstn n rows).
Proof.
  revert n. induction rows as [| x rows IH]; intros n H.
  - rewrite firstn_nil. constructor.
  - destruct n; [constructor |]. cbn [firstn].
    inversion H as [| ? ? Hrest Hx]; subst. constructor; [auto |].
    apply Forall_forall. intros y Hy. apply firstn_incl in Hy.
    rewrite Forall_forall in Hx. auto.
Qed.

(** X24: on a frame with at least one row, [get_top_opportunities]
    returns at most [n] rows, as many as there are rows with a
    positive score if that is fewer, in descending order of score;
    every row it returns is a row of the frame with its own score,
    level and profile, and its score is positive. *)
Theorem top_opportunities_sorted (U : unicode) (df : list row) (n : nat) :
  df <> [] ->
  List.length (get_top_opportunities U df n)
  = Nat.min n
      (List.length
         (filter (fun r =>
                    negb (Qle_bool
                            (opportunity_score
                               (find_opportunities U (avaliacao r) (nota r)
                                  (sentimento r))) 0)) df))
  /\ StronglySorted score_ge (get_top_opportunities U df n)
  /\ Forall (fun t =>
               In (source t) df
               /\ (0 < top_score t)%Q
               /\ top_score t
                  = opportunity_score
                      (find_opportunities U (avaliacao (source t))
                         (nota (source t)) (sentimento (source t)))
               /\ top_level t
                  = opportunity_level
                      (find_opportunities U (avaliacao (source t))
                         (nota (source t)) (sentimento (source t)))
               /\ top_profile t
                  = customer_profile
                      (find_opportunities U (avaliacao (source t))
                         (nota (source t)) (sentimento (source t))))
            (get_top_opportunities U df n).
Proof.
  intros _. unfold get_top_opportunities, nlargest. cbv zeta.
  set (score_row := fun r : row => _).
  set (positive := filter _ (map score_row df)).
  destruct (sort_desc_facts positive) as (Hsorted & Hlen & Hin).
  repeat split.
  - rewrite length_firstn, Hlen. f_equal. unfold positive.
    clear. induction df as [| r df IH]; [reflexivity |].
    cbn [map filter]. unfold score_row at 1. cbn [top_score].
    destruct (negb _); cbn [List.length]; now rewrite IH.
  - now apply firstn_sorted.
  - apply Forall_forall. intros t Ht. apply firstn_incl, Hin in Ht.
    unfold positive in Ht. apply filter_In in Ht as [Ht Hpos].
    apply in_map_iff in Ht as (r & <- & Hr). unfold score_row.
    cbn [source top_score top_level top_profile]. repeat split; auto.
    unfold score_row in Hpos. cbn [top_score] in Hpos.
    apply negb_true_iff in Hpos. apply Qnot_le_lt. intros H.
    apply Qle_bool_iff in H. congruence.
Qed.

Lemma top_opportunities_sorted_witness :
  map top_score (get_top_opportunities Latin.db sample_frame 1)
  = [100.00%Q]
  /\ List.length (get_top_opportunities Latin.db sample_frame 5) = 2
  /\ StronglySorted score_ge (get_top_opportunities Latin.db sample_frame 5).
Proof.
  destruct (top_opportunities_sorted Latin.db sample_frame 5
              ltac:(discriminate)) as (Hlen & Hsorted & _).
  split; [vm_compute; reflexivity |].
  split; [| exact Hsorted].
  rewrite Hlen. vm_compute. reflexivity.
Defined.

(* ===================================================================== *)
(** * preprocessing/text_cleaner.py: expanding contractions twice         *)
(* ===================================================================== *)

Lemma split_from_app_space (U : unicode) (a b : str) (c : codepoint) :
  isspace U c = true ->
  forall word,
    split_from U word (a ++ c :: b) = split_from U word a ++ split U b.
Proof.
  intros Hc. induction a as [| x a IH]; intros word;
    cbn [app split_from].
  - rewrite Hc. destruct word; reflexivity.
  - destruct (isspace U x); [| apply IH].
    destruct word; cbn [app]; now rewrite IH.
Qed.

Lemma split_join (U : unicode) (words : list str) :
  split U (join words) = flat_map (split U) words.
Proof.
  induction words as [| w rest IH]; [reflexivity |].
  destruct rest as [| w' rest'].
  - cbn [join flat_map]. now rewrite app_nil_r.
  - change (join (w :: w' :: rest')) with (w ++ 32%N :: join (w' :: rest')).
    unfold split at 1. rewrite split_from_app_space by reflexivity.
    rewrite IH. reflexivity.
Qed.

Lemma split_from_word (U : unicode) (w : str) :
  Forall (fun c => isspace U c = false) w ->
  forall word, word ++ w <> [] -> split_from U word w = [word ++ w].
Proof.
  induction 1 as [| c w Hc Hw IH]; intros word Hne; cbn [split_from].
  - rewrite app_nil_r in *. destruct word; [now destruct Hne | reflexivity].
  - rewrite Hc, IH; rewrite <- app_assoc; [reflexivity | exact Hne].
Qed.

Lemma split_ext (U V : unicode) (s : str) :
  Forall (fun c => isspace U c = isspace V c) s ->
  forall word, split_from U word s = split_from V word s.
Proof.
  induction 1 as [| c s Hc Hs IH]; intros word; cbn [split_from];
    [reflexivity |].
  rewrite Hc. destruct (isspace V c); [| apply IH].
  destruct word; now rewrite IH.
Qed.

Lemma join_app (l1 l2 : list str) :
  l1 <> [] -> l2 <> [] -> join (l1 ++ l2) = join l1 ++ 32%N :: join l2.
Proof.
  induction l1 as [| w l1 IH]; intros H1 H2; [congruence |].
  destruct l1 as [| w' l1'].
  - cbn [app]. destruct l2; [congruence | reflexivity].
  - change (join ((w :: w' :: l1') ++ l2))
      with (w ++ 32%N :: join ((w' :: l1') ++ l2)).
    rewrite IH by (auto; discriminate).
    change (join (w :: w' :: l1')) with (w ++ 32%N :: join (w' :: l1')).
    now rewrite <- app_assoc.
Qed.

(** A string that the steps "split, look up, join" give back. *)
Definition settled (U : unicode) (e : str) : Prop :=
  split U e <> []
  /\ map (fun word => dict_get CONTRACTIONS word word) (split U e)
     = split U e
  /\ join (split U e) = e.

Lemma join_flat_map_settled (U : unicode) (items : list str) :
  Forall (settled U) items ->
  flat_map (split U) items <> [] \/ items = [].
Proof.
  induction 1 as [| e items [Hne _] Hs IH]; [now right |].
  left. cbn [flat_map]. destruct (split U e); [congruence | discriminate].
Qed.

Lemma expand_settled (U : unicode) (items : list str) :
  Forall (settled U) items ->
  join (map (fun word => dict_get CONTRACTIONS word word)
            (flat_map (split U) items))
  = join items.
Proof.
  induction 1 as [| e items [Hne [Hmap Hjoin]] Hs IH]; [reflexivity |].
  cbn [flat_map]. rewrite map_app, Hmap.
  destruct items as [| e' items'].
  - cbn [flat_map map]. now rewrite app_nil_r.
  - destruct (join_flat_map_settled U (e' :: items') Hs) as [Hne' | H];
      [| discriminate].
    rewrite join_app; [| assumption |].
    + rewrite IH, Hjoin. reflexivity.
    + intros H. apply map_eq_nil in H. congruence.
Qed.

(** The letters with accents in the values of [CONTRACTIONS]. *)
Definition VALUE_ACCENTS : str := u "áãéê".

Lemma contraction_values_settled (U : unicode) :
  (forall c, In c VALUE_ACCENTS -> isspace_high U c = false) ->
  forall kv, In kv CONTRACTIONS -> settled U (snd kv).
Proof.
  intros HU kv Hin.
  assert (Hext : split U (snd kv) = split Latin.db (snd kv)).
  { apply split_ext. apply Forall_forall. intros c Hc. unfold isspace.
    destruct (c <? 128)%N eqn:E; [reflexivity |].
    assert (Hacc : In c VALUE_ACCENTS).
    { revert kv Hin c Hc E. unfold CONTRACTIONS. cbn [map In fst snd].
      intros kv Hin.
      repeat (destruct Hin as [<- | Hin];
              [cbn [snd]; vm_compute; intros c Hc E;
               repeat (destruct Hc as [<- | Hc];
                       [first [discriminate | tauto] |]);
               destruct Hc |]).
      destruct Hin. }
    rewrite (HU c Hacc). revert Hacc. vm_compute.
    intros H; repeat (destruct H as [<- | H]; [reflexivity |]); destruct H. }
  unfold settled. rewrite Hext. clear Hext HU.
  revert kv Hin. unfold CONTRACTIONS. cbn [map In fst snd]. intros kv Hin.
  repeat (destruct Hin as [<- | Hin];
          [cbn [snd]; vm_compute; repeat split; discriminate |]).
  destruct Hin.
Qed.

(** X25: where the Unicode tables do not class the accented letters of
    the expansions as whitespace (Python's do not), expanding
    contractions a second time changes nothing: no expansion contains
    an abbreviation of the table. *)
Theorem expand_contractions_idempotent (U : unicode) (text : str) :
  (forall c, In c VALUE_ACCENTS -> isspace_high U c = false) ->
  _expand_contractions U (_expand_contractions U text)
  = _expand_contractions U text.
Proof.
  intros HU. unfold _expand_contractions. cbv zeta.
  rewrite split_join. apply expand_settled.
  apply Forall_forall. intros e He.
  apply in_map_iff in He as (w & <- & Hw).
  pose proof (split_from_words U text [] (Forall_nil _)) as Hwords.
  rewrite Forall_forall in Hwords. destruct (Hwords w Hw) as [Hne Hsp].
  destruct (existsb (fun kv => str_eqb (fst kv) w) CONTRACTIONS) eqn:E.
  - assert (Hv : exists kv, In kv CONTRACTIONS
                          /\ dict_get CONTRACTIONS w w = snd kv).
    { clear - E. induction CONTRACTIONS as [| [k v] d IH]; [discriminate |].
      cbn [existsb fst dict_get] in *.
      destruct (str_eqb k w).
      - exists (k, v). split; [now left | reflexivity].
      - cbn [orb] in E. destruct (IH E) as (kv & Hin & Heq).
        exists kv. split; [now right | assumption]. }
    destruct Hv as (kv & Hin & ->).
    now apply contraction_values_settled.
  - rewrite (CleanerFacts.dict_get_miss _ _ E).
    assert (Hsplit : split U w = [w])
      by (apply (split_from_word U w Hsp []); exact Hne).
    unfold settled. rewrite Hsplit. cbn [map join].
    rewrite (CleanerFacts.dict_get_miss _ _ E).
    repeat split. discriminate.
Qed.

Lemma expand_contractions_idempotent_witness :
  _expand_contractions Latin.db (u "vc  pro  td né") = u "você para o tudo não é"
  /\ _expand_contractions Latin.db
       (_expand_contractions Latin.db (u "vc  pro  td né"))
     = _expand_contractions Latin.db (u "vc  pro  td né").
Proof.
  split; [vm_compute; reflexivity |].
  apply (expand_contractions_idempotent Latin.db).
  intros c Hc. revert Hc. vm_compute.
  intros H; repeat (destruct H as [<- | H]; [reflexivity |]); destruct H.
Defined.

(* ===================================================================== *)
(** * app.py: cleaning, then categorising                                 *)
(* ===================================================================== *)

Module App.
Section Process.
Variable U : unicode.

(** The two columns [process_data] adds to a row: the review is
    cleaned and the category is extracted from the cleaned text.  The
    review is a string or a missing value. *)
Definition process_data (review : option str) : str * (string * Q) :=
  let avaliacao_limpa := clean_text U review in
  (avaliacao_limpa, extract_category U (PyStr avaliacao_limpa)).

End Process.
End App.

(** X26: [process_data] gives every row a category of
    [get_all_categories()] with a confidence in [0, 1]; a review that
    is missing, or that cleaning empties, gets ('Outros', 0.0). *)
Theorem process_data_category (U : unicode) (review : option str) :
  In (fst (snd (App.process_data U review))) get_all_categories
  /\ (0 <= snd (snd (App.process_data U review)) <= 1)%Q
  /\ (fst (App.process_data U review) = [] ->
      snd (App.process_data U review) = ("Outros"%string, 0.0%Q))
  /\ App.process_data U None = ([], ("Outros"%string, 0.0%Q)).
Proof.
  unfold App.process_data. cbv zeta. cbn [fst snd].
  repeat split.
  - apply category_is_listed.
  - destruct (CategoryFacts.extract_category_cases U
                (PyStr (clean_text U review)))
      as [E | (s & cat & n & _ & _ & _ & E)]; rewrite E; cbn [snd];
      [discriminate |].
    case_outer_py_min; [| discriminate].
    unfold Qle, Qdiv, Qmult, Qinv, of_nat, inject_Z. cbn [Qnum Qden]. lia.
  - destruct (CategoryFacts.extract_category_cases U
                (PyStr (clean_text U review)))
      as [E | (s & cat & n & _ & _ & _ & E)]; rewrite E; cbn [snd];
      [discriminate |].
    case_outer_py_min; [q2z | discriminate].
  - intros ->. reflexivity.
Qed.

Lemma process_data_category_witness :
  snd (App.process_data Latin.db (Some (u " ### ")))
  = ("Outros"%string, 0.0%Q).
Proof.
  destruct (process_data_category Latin.db (Some (u " ### ")))
    as (_ & _ & H & _).
  apply H. vm_compute. reflexivity.
Defined.
